(** * Secrets Manager arbitrary secret resource and service credentials data source

    A shallow embedding of
      - ibm/service/secretsmanager/resource_ibm_sm_arbitrary_secret.go
      - ibm/service/secretsmanager/data_source_ibm_sm_service_credentials_secret.go

    The plugin framework's [schema.ResourceData] is a record holding the
    resource ID, the current attribute values (what [d.Get] sees and what
    [d.Set] writes) and the prior state (what [d.HasChange] compares with).
    The Secrets Manager REST client is modelled by a script of answers, one
    per SDK call, and a trace recording every call the code issues.
    Go panics (failed type assertions, nil dereferences, out of range
    indexing) are an outcome of their own. *)

From Stdlib Require Import String Ascii ZArith List.
From stdpp Require Import base gmap strings list.
Import ListNotations.
Open Scope string_scope.

Local Infix "+++" := String.append (at level 60, right associativity).

(* ------------------------------------------------------------------ *)
(** ** Attribute values of the plugin framework *)

#[warnings="-register-all"]
Inductive value :=
| VNull
| VString (s : string)
| VBool (b : bool)
| VInt (z : Z)
| VList (l : list value)
| VMap (m : list (string * value)).

Fixpoint value_eqb (v w : value) : bool :=
  match v, w with
  | VNull, VNull => true
  | VString a, VString b => String.eqb a b
  | VBool a, VBool b => Bool.eqb a b
  | VInt a, VInt b => Z.eqb a b
  | VList a, VList b =>
      (fix go (xs ys : list value) : bool :=
         match xs, ys with
         | [], [] => true
         | x :: xs', y :: ys' => value_eqb x y && go xs' ys'
         | _, _ => false
         end) a b
  | VMap a, VMap b =>
      (fix go (xs ys : list (string * value)) : bool :=
         match xs, ys with
         | [], [] => true
         | (k, x) :: xs', (l, y) :: ys' => String.eqb k l && value_eqb x y && go xs' ys'
         | _, _ => false
         end) a b
  | _, _ => false
  end.

(** [GetOk] reports a key as set only when it holds a non-zero value. *)
Definition value_nonzero (v : value) : bool :=
  match v with
  | VNull => false
  | VString s => negb (String.eqb s "")
  | VBool b => b
  | VInt z => negb (Z.eqb z 0)
  | VList l => negb (Nat.eqb (length l) 0)
  | VMap m => negb (Nat.eqb (length m) 0)
  end.

(** [fmt.Sprint] of a list element. *)
Definition Sprint (v : value) : string :=
  match v with
  | VString s => s
  | VBool true => "true"
  | VBool false => "false"
  | VNull => "<nil>"
  | _ => "<value>"
  end.

(* ------------------------------------------------------------------ *)
(** ** schema.ResourceData *)

Record ResourceData := {
  rd_id : string;
  rd_attrs : gmap string value;   (* d.Get / d.Set *)
  rd_old : gmap string value;     (* prior state, for d.HasChange *)
  rd_timeout_create : Z           (* d.Timeout(schema.TimeoutCreate), in seconds *)
}.

Definition Id (d : ResourceData) : string := rd_id d.

Definition SetId (s : string) (d : ResourceData) : ResourceData :=
  {| rd_id := s; rd_attrs := rd_attrs d; rd_old := rd_old d;
     rd_timeout_create := rd_timeout_create d |}.

Definition Set_ (k : string) (v : value) (d : ResourceData) : ResourceData :=
  {| rd_id := rd_id d; rd_attrs := <[k := v]> (rd_attrs d); rd_old := rd_old d;
     rd_timeout_create := rd_timeout_create d |}.

Definition GetOk (d : ResourceData) (k : string) : bool :=
  match rd_attrs d !! k with
  | Some v => value_nonzero v
  | None => false
  end.

Definition Get_string (d : ResourceData) (k : string) : string :=
  match rd_attrs d !! k with Some (VString s) => s | _ => "" end.

Definition Get_list (d : ResourceData) (k : string) : list value :=
  match rd_attrs d !! k with Some (VList l) => l | _ => [] end.

Definition Get_map (d : ResourceData) (k : string) : list (string * value) :=
  match rd_attrs d !! k with Some (VMap m) => m | _ => [] end.

Definition opt_value_eqb (a b : option value) : bool :=
  match a, b with
  | Some v, Some w => value_eqb v w
  | None, None => true
  | _, _ => false
  end.

Definition HasChange (d : ResourceData) (k : string) : bool :=
  negb (opt_value_eqb (rd_old d !! k) (rd_attrs d !! k)).

(** [strings.Split(s, "/")] *)
Fixpoint split_slash_acc (s : string) (cur : string) : list string :=
  match s with
  | EmptyString => [cur]
  | String c rest =>
      if Ascii.eqb c "/"%char then cur :: split_slash_acc rest ""
      else split_slash_acc rest (cur +++ String c EmptyString)
  end.

Definition Split (s : string) : list string := split_slash_acc s "".

(* ------------------------------------------------------------------ *)
(** ** Errors, responses and diagnostics *)

(** A Go error: its message, and the status code when it is a
    [bmxerror.RequestFailure]. *)
Record error := { err_msg : string; err_request_failure : option Z }.

Definition Errorf (msg : string) : error := {| err_msg := msg; err_request_failure := None |}.

(** [core.DetailedResponse]: its status code and its rendering by [%s]. *)
Record Response := { StatusCode : Z; resp_text : string }.

Definition fmt_response (r : option Response) : string :=
  match r with Some r => resp_text r | None => "<nil>" end.

Record Diagnostic := { diag_summary : string }.

Definition FromErr (e : error) : list Diagnostic := [ {| diag_summary := err_msg e |} ].

(* ------------------------------------------------------------------ *)
(** ** Models of the secrets-manager SDK (secretsmanagerv2) *)

(** [strfmt.DateTime], by its RFC 3339 rendering. *)
Definition DateTime := string.

(** Go maps and slices may be nil; pointers may be nil: all are options. *)
Module ArbitrarySecret.
Record t := {
  ID : option string;
  CreatedBy : option string;
  CreatedAt : option DateTime;
  Crn : option string;
  Downloaded : option bool;
  LocksTotal : option Z;
  Name : option string;
  SecretGroupID : option string;
  SecretType : option string;
  State : option Z;
  StateDescription : option string;
  UpdatedAt : option DateTime;
  VersionsTotal : option Z;
  CustomMetadata : option (list (string * value));
  Description : option string;
  Labels : option (list string);
  ExpirationDate : option DateTime;
  Payload : option string
}.
End ArbitrarySecret.

Module ArbitrarySecretPrototype.
Record t := {
  SecretType : option string;
  Name : option string;
  Payload : option string;
  CustomMetadata : option (list (string * value));
  Description : option string;
  ExpirationDate : option DateTime;
  Labels : option (list string);
  SecretGroupID : option string;
  VersionCustomMetadata : option (list (string * value))
}.
Definition empty : t :=
  {| SecretType := None; Name := None; Payload := None; CustomMetadata := None;
     Description := None; ExpirationDate := None; Labels := None;
     SecretGroupID := None; VersionCustomMetadata := None |}.
End ArbitrarySecretPrototype.

(** [secretsmanagerv2.SecretMetadataPatch]: the fields a metadata update can
    carry. It has no payload field. *)
Module SecretMetadataPatch.
Record t := {
  Name : option string;
  Description : option string;
  Labels : option (list string);
  CustomMetadata : option (list (string * value));
  ExpirationDate : option DateTime;
  TTL : option string
}.
Definition empty : t :=
  {| Name := None; Description := None; Labels := None; CustomMetadata := None;
     ExpirationDate := None; TTL := None |}.
End SecretMetadataPatch.

(** The service credentials secret, with its nested payload blocks. *)
Module ServiceCredentialsSecretCredentials.
Record t := {
  Apikey : option string;
  CosHmacKeys : option (option string * option string);  (* access_key_id, secret_access_key *)
  Endpoints : option string;
  IamApikeyDescription : option string;
  IamApikeyName : option string;
  IamRoleCRN : option string;
  IamServiceidCRN : option string;
  ResourceInstanceID : option string
}.
End ServiceCredentialsSecretCredentials.

Module ServiceCredentialsSecretSourceService.
Record t := {
  InstanceCrn : option string;
  RoleCrn : option string;
  IamApikeyName : option string;
  IamApikeyDescription : option string;
  IamRoleCrn : option string;
  IamServiceidCrn : option string;
  ResourceKeyCrn : option string;
  ResourceKeyName : option string;
  Parameters : option (list (string * value))
}.
End ServiceCredentialsSecretSourceService.

Module CommonRotationPolicy.
Record t := { AutoRotate : option bool; Interval : option Z; Unit : option string }.
End CommonRotationPolicy.

(** [RotationPolicyIntf]: the data source asserts [*CommonRotationPolicy]. *)
Inductive RotationPolicyIntf :=
| CommonRotationPolicyI (p : CommonRotationPolicy.t)
| OtherRotationPolicyI.

Module ServiceCredentialsSecret.
Record t := {
  ID : option string;
  CreatedBy : option string;
  CreatedAt : option DateTime;
  Crn : option string;
  CustomMetadata : option (list (string * value));
  Description : option string;
  Downloaded : option bool;
  Labels : option (list string);
  LocksTotal : option Z;
  Name : option string;
  SecretGroupID : option string;
  SecretType : option string;
  State : option Z;
  StateDescription : option string;
  UpdatedAt : option DateTime;
  VersionsTotal : option Z;
  VersionCustomMetadata : option (list (string * value));
  TTL : option string;
  Rotation : option RotationPolicyIntf;
  NextRotationDate : option DateTime;
  Credentials : option ServiceCredentialsSecretCredentials.t;
  SourceService : option ServiceCredentialsSecretSourceService.t
}.
End ServiceCredentialsSecret.

(** [SecretIntf]: the dynamic type behind the interface the SDK returns. *)
Inductive SecretIntf :=
| ArbitrarySecretI (s : ArbitrarySecret.t)
| ServiceCredentialsSecretI (s : ServiceCredentialsSecret.t)
| OtherSecretI.

(** The SDK calls the resource issues. *)
Inductive sdk_call :=
| CreateSecretWithContext (p : ArbitrarySecretPrototype.t)
| GetSecretWithContext (id : string)
| GetSecret (id : string)
| UpdateSecretMetadataWithContext (id : string) (patch : SecretMetadataPatch.t)
| DeleteSecretWithContext (id : string).

(** What a call returns: Go's (result, response, err) triple. *)
Record answer := {
  ans_result : option SecretIntf;
  ans_response : option Response;
  ans_err : option error
}.

(* ------------------------------------------------------------------ *)
(** ** The execution monad: state, SDK calls and Go panics *)

Record world := {
  w_d : ResourceData;
  w_session_err : option error;      (* meta.(conns.ClientSession).SecretsManagerV2() *)
  w_server : nat -> answer;          (* the answer to the n-th SDK call *)
  w_trace : list (sdk_call * bool);  (* the calls issued, and whether each failed *)
  w_polls : nat                      (* refreshes WaitForState completes before its timeout *)
}.

Inductive exec (A : Type) :=
| Done (a : A)
| Panicked (msg : string).
Arguments Done {A} a.
Arguments Panicked {A} msg.

Definition M (A : Type) := world -> exec A * world.

Definition ret {A} (a : A) : M A := fun w => (Done a, w).

Definition bind {A B} (m : M A) (k : A -> M B) : M B :=
  fun w => match m w with
           | (Done a, w') => k a w'
           | (Panicked p, w') => (Panicked p, w')
           end.

Notation "'let!' x ':=' m 'in' k" := (bind m (fun x => k))
  (at level 200, x name, m at level 100, k at level 200).

Definition panic {A} (msg : string) : M A := fun w => (Panicked msg, w).

Definition getD : M ResourceData := fun w => (Done (w_d w), w).

Definition putD (d : ResourceData) : M unit :=
  fun w => (Done tt, {| w_d := d; w_session_err := w_session_err w; w_server := w_server w;
                        w_trace := w_trace w; w_polls := w_polls w |}).

Definition SecretsManagerV2 : M (option error) := fun w => (Done (w_session_err w), w).

Definition pollBudget : M nat := fun w => (Done (w_polls w), w).

(** Issue one SDK call: the server answers, the trace records it. *)
Definition call (c : sdk_call) : M answer :=
  fun w =>
    let a := w_server w (length (w_trace w)) in
    (Done a, {| w_d := w_d w; w_session_err := w_session_err w; w_server := w_server w;
                w_trace := w_trace w ++ [(c, bool_decide (is_Some (ans_err a)))];
                w_polls := w_polls w |}).

(* ------------------------------------------------------------------ *)
(** ** resource.StateChangeConf and WaitForState (terraform-plugin-sdk)

    The waiting loop is the plugin SDK's, used here with the fields the
    resource sets. Each round calls [Refresh]; a refresh error ends the
    wait with that error; a state in [Target] ends it with success; a state
    in [Pending] continues; any other state ends it with an unexpected
    state error (the resource's [Pending] list is not empty); a nil result
    counts towards [NotFoundChecks] (default 20). Time is not modelled: the
    world's [w_polls] is the number of refreshes that complete before
    [Timeout] elapses, after which the wait ends with a timeout error
    carrying the last state seen. *)

Record StateChangeConf := {
  Pending : list string;
  Target : list string;
  Refresh : M (option ArbitrarySecret.t * string * option error);
  Timeout : Z;       (* seconds *)
  Delay : Z;         (* seconds *)
  MinTimeout : Z     (* seconds *)
}.

Inductive wait_error :=
| RefreshError (e : error)
| UnexpectedStateError (state : string)
| NotFoundError
| TimeoutError (last_state : string).

Definition NotFoundChecks : nat := 20.

Definition string_in (s : string) (l : list string) : bool := existsb (String.eqb s) l.

Fixpoint wait_loop (conf : StateChangeConf) (fuel notfound : nat) (last : string)
  : M (option ArbitrarySecret.t + wait_error) :=
  match fuel with
  | O => ret (inr (TimeoutError last))
  | S fuel' =>
      let! r := Refresh conf in
      let '(res, currentState, err) := r in
      match err with
      | Some e => ret (inr (RefreshError e))
      | None =>
          match res with
          | None =>
              if Nat.ltb NotFoundChecks (S notfound) then ret (inr NotFoundError)
              else wait_loop conf fuel' (S notfound) currentState
          | Some o =>
              if string_in currentState (Target conf) then ret (inl (Some o))
              else if string_in currentState (Pending conf) then wait_loop conf fuel' 0 currentState
              else ret (inr (UnexpectedStateError currentState))
          end
      end
  end.

Definition WaitForState (conf : StateChangeConf) : M (option ArbitrarySecret.t + wait_error) :=
  let! n := pollBudget in
  wait_loop conf n 0 "".

(** The text of the error WaitForState returns (abridged). *)
Definition wait_error_msg (e : wait_error) : string :=
  match e with
  | RefreshError e => err_msg e
  | UnexpectedStateError s => "unexpected state '" +++ s +++ "', wanted target 'active'"
  | NotFoundError => "couldn't find resource"
  | TimeoutError s => "timeout while waiting for state to become 'active' (last state: '" +++ s +++ "')"
  end.

(* ------------------------------------------------------------------ *)
(** ** Small Go helpers *)

Definition quote : string := String (Ascii.ascii_of_nat 34) EmptyString.

(** [fmt.Errorf("<ctx> failed %s\n%s", err, response)] *)
Definition failed_msg (ctx : string) (e : error) (r : option Response) : error :=
  Errorf (ctx +++ " failed " +++ err_msg e +++ "
" +++ fmt_response r).

(** [id[0]], [id[1]], [id[2]] on the result of [strings.Split]: Go panics
    when the slice is too short. *)
Definition index3 (id : list string) : M (string * string * string) :=
  match id with
  | region :: instanceId :: secretId :: _ => ret (region, instanceId, secretId)
  | [_; _] => panic "runtime error: index out of range [2] with length 2"
  | _ => panic "runtime error: index out of range [1] with length 1"
  end.

Definition vstr (o : option string) : value :=
  match o with Some s => VString s | None => VNull end.
Definition vbool (o : option bool) : value :=
  match o with Some b => VBool b | None => VNull end.
(** [flex.IntValue] *)
Definition IntValue (o : option Z) : value :=
  match o with Some z => VInt z | None => VInt 0 end.
(** [flex.DateTimeToString] *)
Definition DateTimeToString (o : option DateTime) : value :=
  match o with Some t => VString t | None => VString "" end.
Definition vlabels (l : list string) : value := VList (map VString l).

Definition set_all (kvs : list (string * value)) (d : ResourceData) : ResourceData :=
  fold_left (fun d kv => Set_ kv.1 kv.2 d) kvs d.

(* ------------------------------------------------------------------ *)
(** ** The arbitrary secret resource *)

Section Lifecycle.

(** [getRegion(client, d)] lives in another file of the package; it makes
    no SDK call and only yields the region string. *)
Variable getRegion : ResourceData -> string.

(** [time.Parse(time.RFC3339, s)]: a timestamp or the parse error text. *)
Variable time_Parse_RFC3339 : string -> DateTime + string.

Definition resourceIbmSmArbitrarySecretMapToArbitrarySecretPrototype (d : ResourceData)
  : ArbitrarySecretPrototype.t + error :=
  let name := if GetOk d "name" then Some (Get_string d "name") else None in
  let payload := if GetOk d "payload" then Some (Get_string d "payload") else None in
  let custom_metadata :=
    if GetOk d "custom_metadata" then Some (Get_map d "custom_metadata") else None in
  let description := if GetOk d "description" then Some (Get_string d "description") else None in
  let expiration :=
    if GetOk d "expiration_date" then
      match time_Parse_RFC3339 (Get_string d "expiration_date") with
      | inl t => inl (Some t)
      | inr msg =>
          inr (Errorf ("Failed to get " +++ quote +++ "expiration_date" +++ quote +++
                       ". Error: " +++ msg))
      end
    else inl None in
  match expiration with
  | inr e => inr e
  | inl expiration_date =>
      let labels :=
        if GetOk d "labels" then Some (map Sprint (Get_list d "labels")) else None in
      let secret_group_id :=
        if GetOk d "secret_group_id" then Some (Get_string d "secret_group_id") else None in
      let version_custom_metadata :=
        if GetOk d "version_custom_metadata" then Some (Get_map d "version_custom_metadata")
        else None in
      inl {| ArbitrarySecretPrototype.SecretType := Some "arbitrary";
             ArbitrarySecretPrototype.Name := name;
             ArbitrarySecretPrototype.Payload := payload;
             ArbitrarySecretPrototype.CustomMetadata := custom_metadata;
             ArbitrarySecretPrototype.Description := description;
             ArbitrarySecretPrototype.ExpirationDate := expiration_date;
             ArbitrarySecretPrototype.Labels := labels;
             ArbitrarySecretPrototype.SecretGroupID := secret_group_id;
             ArbitrarySecretPrototype.VersionCustomMetadata := version_custom_metadata |}
  end.

(** The attributes Read sets from a fetched secret, in the order it sets them. *)
Definition read_attrs (region instanceId secretId : string) (secret : ArbitrarySecret.t)
  : list (string * value) :=
  [("secret_id", VString secretId); ("instance_id", VString instanceId);
   ("region", VString region);
   ("created_by", vstr (ArbitrarySecret.CreatedBy secret));
   ("created_at", DateTimeToString (ArbitrarySecret.CreatedAt secret));
   ("crn", vstr (ArbitrarySecret.Crn secret));
   ("downloaded", vbool (ArbitrarySecret.Downloaded secret));
   ("locks_total", IntValue (ArbitrarySecret.LocksTotal secret));
   ("name", vstr (ArbitrarySecret.Name secret));
   ("secret_group_id", vstr (ArbitrarySecret.SecretGroupID secret));
   ("secret_type", vstr (ArbitrarySecret.SecretType secret));
   ("state", IntValue (ArbitrarySecret.State secret));
   ("state_description", vstr (ArbitrarySecret.StateDescription secret));
   ("updated_at", DateTimeToString (ArbitrarySecret.UpdatedAt secret));
   ("versions_total", IntValue (ArbitrarySecret.VersionsTotal secret))] ++
  match ArbitrarySecret.CustomMetadata secret with
  | Some m => [("custom_metadata", VMap m)] | None => [] end ++
  [("description", vstr (ArbitrarySecret.Description secret))] ++
  match ArbitrarySecret.Labels secret with
  | Some l => [("labels", vlabels l)] | None => [] end ++
  [("expiration_date", DateTimeToString (ArbitrarySecret.ExpirationDate secret));
   ("payload", vstr (ArbitrarySecret.Payload secret))].

Definition resourceIbmSmArbitrarySecretRead : M (list Diagnostic) :=
  let! se := SecretsManagerV2 in
  match se with
  | Some e => ret (FromErr e)
  | None =>
      let! d := getD in
      match Split (Id d) with
      | [region; instanceId; secretId] =>
          let! a := call (GetSecretWithContext secretId) in
          match ans_err a with
          | Some e =>
              match ans_response a with
              | Some r =>
                  if Z.eqb (StatusCode r) 404 then
                    let! _ := putD (SetId "" d) in ret []
                  else ret (FromErr (failed_msg "GetSecretWithContext" e (ans_response a)))
              | None => ret (FromErr (failed_msg "GetSecretWithContext" e (ans_response a)))
              end
          | None =>
              match ans_result a with
              | Some (ArbitrarySecretI secret) =>
                  let! _ := putD (set_all (read_attrs region instanceId secretId secret) d) in
                  ret []
              | _ => panic "interface conversion: secretsmanagerv2.SecretIntf is not *secretsmanagerv2.ArbitrarySecret"
              end
          end
      | _ =>
          ret [ {| diag_summary := "Wrong format of resource ID. To import a secret use the format `<region>/<instance_id>/<secret_id>`" |} ]
      end
  end.

(** The [Refresh] closure of [waitForIbmSmArbitrarySecretCreate]: the type
    assertion on the result comes before the error check. *)
Definition failStates (s : string) : bool :=
  match (list_to_map [("destroyed", true)] : gmap string bool) !! s with
  | Some b => b
  | None => false
  end.

(** The two errors the closure builds; the second formats the nil [err]. *)
Definition instance_gone_error (e : error) (r : option Response) : error :=
  Errorf ("The instance getSecretOptions does not exist anymore: " +++ err_msg e +++ "
" +++ fmt_response r).

Definition instance_failed_error (r : option Response) : error :=
  Errorf ("The instance getSecretOptions failed: %!s(<nil>)
" +++ fmt_response r).

Definition refresh (secretId : string) : M (option ArbitrarySecret.t * string * option error) :=
  let! a := call (GetSecret secretId) in
  match ans_result a with
  | Some (ArbitrarySecretI stateObj) =>
      match ans_err a with
      | Some e =>
          match err_request_failure e with
          | Some 404%Z =>
              ret (None, "", Some (instance_gone_error e (ans_response a)))
          | _ => ret (None, "", Some e)
          end
      | None =>
          match ArbitrarySecret.StateDescription stateObj with
          | None => panic "runtime error: invalid memory address or nil pointer dereference"
          | Some sd =>
              if failStates sd then
                ret (Some stateObj, sd, Some (instance_failed_error (ans_response a)))
              else ret (Some stateObj, sd, None)
          end
      end
  | Some _ => panic "interface conversion: secretsmanagerv2.SecretIntf is not *secretsmanagerv2.ArbitrarySecret"
  | None => panic "interface conversion: interface is nil, not *secretsmanagerv2.ArbitrarySecret"
  end.

Definition createStateConf (d : ResourceData) (secretId : string) : StateChangeConf :=
  {| Pending := ["pre_activation"];
     Target := ["active"];
     Refresh := refresh secretId;
     Timeout := rd_timeout_create d;
     Delay := 0;
     MinTimeout := 5 |}.

Definition waitForIbmSmArbitrarySecretCreate : M (option ArbitrarySecret.t + wait_error) :=
  let! d := getD in
  let! ids := index3 (Split (Id d)) in
  let '(_, _, secretId) := ids in
  WaitForState (createStateConf d secretId).

Definition resourceIbmSmArbitrarySecretCreate : M (list Diagnostic) :=
  let! se := SecretsManagerV2 in
  match se with
  | Some e => ret (FromErr e)
  | None =>
      let! d := getD in
      let region := getRegion d in
      let instanceId := Get_string d "instance_id" in
      match resourceIbmSmArbitrarySecretMapToArbitrarySecretPrototype d with
      | inr e => ret (FromErr e)
      | inl secretPrototypeModel =>
          let! a := call (CreateSecretWithContext secretPrototypeModel) in
          match ans_err a with
          | Some e => ret (FromErr (failed_msg "CreateSecretWithContext" e (ans_response a)))
          | None =>
              match ans_result a with
              | Some (ArbitrarySecretI secret) =>
                  match ArbitrarySecret.ID secret with
                  | None => panic "runtime error: invalid memory address or nil pointer dereference"
                  | Some sid =>
                      let! _ := putD (Set_ "secret_id" (VString sid)
                                        (SetId (region +++ "/" +++ instanceId +++ "/" +++ sid) d)) in
                      let! r := waitForIbmSmArbitrarySecretCreate in
                      match r with
                      | inr werr =>
                          let! d' := getD in
                          ret (FromErr (Errorf ("Error waiting for resource IbmSmArbitrarySecret (" +++
                                                Id d' +++ ") to be created: " +++ wait_error_msg werr)))
                      | inl _ => resourceIbmSmArbitrarySecretRead
                      end
                  end
              | _ => panic "interface conversion: secretsmanagerv2.SecretIntf is not *secretsmanagerv2.ArbitrarySecret"
              end
          end
      end
  end.

(** The patch Update builds: a field is set exactly when [d.HasChange]
    reports it. *)
Definition update_patch (d : ResourceData) : SecretMetadataPatch.t * bool :=
  let name := if HasChange d "name" then Some (Get_string d "name") else None in
  let description :=
    if HasChange d "description" then Some (Get_string d "description") else None in
  let labels :=
    if HasChange d "labels" then Some (map Sprint (Get_list d "labels")) else None in
  let custom_metadata :=
    if HasChange d "custom_metadata" then Some (Get_map d "custom_metadata") else None in
  let hasChange := HasChange d "name" || HasChange d "description" ||
                   HasChange d "labels" || HasChange d "custom_metadata" in
  ({| SecretMetadataPatch.Name := name;
      SecretMetadataPatch.Description := description;
      SecretMetadataPatch.Labels := labels;
      SecretMetadataPatch.CustomMetadata := custom_metadata;
      SecretMetadataPatch.ExpirationDate := None;
      SecretMetadataPatch.TTL := None |}, hasChange).

(** The call receives [patchVals.AsPatch()], the SDK's rendering of the
    patch struct; the model passes the struct. *)
Definition resourceIbmSmArbitrarySecretUpdate : M (list Diagnostic) :=
  let! se := SecretsManagerV2 in
  match se with
  | Some e => ret (FromErr e)
  | None =>
      let! d := getD in
      let! ids := index3 (Split (Id d)) in
      let '(_, _, secretId) := ids in
      let '(patchVals, hasChange) := update_patch d in
      if hasChange then
        let! a := call (UpdateSecretMetadataWithContext secretId patchVals) in
        match ans_err a with
        | Some e => ret (FromErr (failed_msg "UpdateSecretMetadataWithContext" e (ans_response a)))
        | None => resourceIbmSmArbitrarySecretRead
        end
      else resourceIbmSmArbitrarySecretRead
  end.

Definition resourceIbmSmArbitrarySecretDelete : M (list Diagnostic) :=
  let! se := SecretsManagerV2 in
  match se with
  | Some e => ret (FromErr e)
  | None =>
      let! d := getD in
      let! ids := index3 (Split (Id d)) in
      let '(_, _, secretId) := ids in
      let! a := call (DeleteSecretWithContext secretId) in
      match ans_err a with
      | Some e => ret (FromErr (failed_msg "DeleteSecretWithContext" e (ans_response a)))
      | None =>
          let! _ := putD (SetId "" d) in
          ret []
      end
  end.

End Lifecycle.

(* ------------------------------------------------------------------ *)
(** ** Schemas *)

Inductive ValueType := TypeString | TypeBool | TypeInt | TypeList | TypeMap.

#[warnings="-register-all"]
Inductive Schema := mkSchema {
  Type_ : ValueType;
  Required : bool;
  Optional : bool;
  Computed : bool;
  ForceNew : bool;
  Sensitive : bool;
  Elem : list (string * Schema)
}.

(** Field flags: Required, Optional, Computed, ForceNew, Sensitive. *)
Definition sch (t : ValueType) (req opt comp fnew sens : bool) : Schema :=
  mkSchema t req opt comp fnew sens [].
Definition block (opt comp : bool) (elem : list (string * Schema)) : Schema :=
  mkSchema TypeList false opt comp false false elem.

Definition schema_lookup (k : string) (s : list (string * Schema)) : option Schema :=
  match find (fun kv => String.eqb kv.1 k) s with Some kv => Some kv.2 | None => None end.

(** The schema of [ResourceIbmSmArbitrarySecret]. *)
Definition ResourceIbmSmArbitrarySecret_schema : list (string * Schema) :=
  [("name", sch TypeString true false false false false);
   ("secret_type", sch TypeString false false true false false);
   ("payload", sch TypeString true false false true true);
   ("custom_metadata", sch TypeMap false true true false false);
   ("description", sch TypeString false true false false false);
   ("expiration_date", sch TypeString false true false false false);
   ("labels", sch TypeList false true true false false);
   ("secret_group_id", sch TypeString false true true true false);
   ("version_custom_metadata", sch TypeMap false true false false false);
   ("created_by", sch TypeString false false true false false);
   ("created_at", sch TypeString false false true false false);
   ("crn", sch TypeString false false true false false);
   ("downloaded", sch TypeBool false false true false false);
   ("secret_id", sch TypeString false false true false false);
   ("locks_total", sch TypeInt false false true false false);
   ("state", sch TypeInt false false true false false);
   ("state_description", sch TypeString false false true false false);
   ("updated_at", sch TypeString false false true false false);
   ("versions_total", sch TypeInt false false true false false)].

Definition computed_str : Schema := sch TypeString false false true false false.
Definition crn_block (comp : bool) : Schema :=
  block false true [("crn", sch TypeString (negb comp) false comp false false)].

(** The schema of [DataSourceIbmSmServiceCredentialsSecret]. *)
Definition DataSourceIbmSmServiceCredentialsSecret_schema : list (string * Schema) :=
  [("secret_id", sch TypeString false true true false false);
   ("created_by", computed_str);
   ("created_at", computed_str);
   ("crn", computed_str);
   ("custom_metadata", sch TypeMap false true true false false);
   ("description", sch TypeString false true false false false);
   ("downloaded", sch TypeBool false false true false false);
   ("labels", sch TypeList false true true false false);
   ("locks_total", sch TypeInt false false true false false);
   ("name", sch TypeString false true true false false);
   ("secret_group_id", sch TypeString false true true true false);
   ("secret_group_name", sch TypeString false true false false false);
   ("secret_type", computed_str);
   ("state", sch TypeInt false false true false false);
   ("state_description", computed_str);
   ("updated_at", computed_str);
   ("versions_total", sch TypeInt false false true false false);
   ("version_custom_metadata", sch TypeMap false true true false false);
   ("ttl", computed_str);
   ("rotation", block false true
      [("auto_rotate", sch TypeBool false true true false false);
       ("interval", sch TypeInt false true true false false);
       ("unit", sch TypeString false true true false false)]);
   ("next_rotation_date", computed_str);
   ("credentials", block false true
      [("apikey", sch TypeString false false true false true);
       ("cos_hmac_keys", block false true
          [("access_key_id", computed_str); ("secret_access_key", computed_str)]);
       ("endpoints", computed_str);
       ("iam_apikey_description", computed_str);
       ("iam_apikey_name", computed_str);
       ("iam_role_crn", computed_str);
       ("iam_serviceid_crn", computed_str);
       ("resource_instance_id", computed_str)]);
   ("source_service", block false true
      [("instance", crn_block false);
       ("role", crn_block true);
       ("iam", block false true
          [("apikey", block false true [("name", computed_str); ("description", computed_str)]);
           ("role", crn_block true);
           ("serviceid", crn_block true)]);
       ("resource_key", block false true [("crn", computed_str); ("name", computed_str)]);
       ("parameters", sch TypeMap false false true false false)])].

(* ------------------------------------------------------------------ *)
(** ** The service credentials data source *)

Definition dataSourceIbmSmServiceCredentialsSecretRotationPolicyToMap
  (model : CommonRotationPolicy.t) : list (string * value) :=
  match CommonRotationPolicy.AutoRotate model with
  | Some b => [("auto_rotate", VBool b)] | None => [] end ++
  match CommonRotationPolicy.Interval model with
  | Some i => [("interval", VInt i)] | None => [] end ++
  match CommonRotationPolicy.Unit model with
  | Some u => [("unit", VString u)] | None => [] end.

(** The attributes the data source sets from the fetched secret before
    [rotation], in order (after [region]). *)
Definition ds_read_attrs (s : ServiceCredentialsSecret.t) : list (string * value) :=
  [("created_by", vstr (ServiceCredentialsSecret.CreatedBy s));
   ("created_at", DateTimeToString (ServiceCredentialsSecret.CreatedAt s));
   ("crn", vstr (ServiceCredentialsSecret.Crn s))] ++
  match ServiceCredentialsSecret.CustomMetadata s with
  | Some m => [("custom_metadata", VMap m)] | None => [] end ++
  [("description", vstr (ServiceCredentialsSecret.Description s));
   ("downloaded", vbool (ServiceCredentialsSecret.Downloaded s))] ++
  match ServiceCredentialsSecret.Labels s with
  | Some l => [("labels", vlabels l)] | None => [] end ++
  [("locks_total", IntValue (ServiceCredentialsSecret.LocksTotal s));
   ("name", vstr (ServiceCredentialsSecret.Name s));
   ("secret_group_id", vstr (ServiceCredentialsSecret.SecretGroupID s));
   ("secret_type", vstr (ServiceCredentialsSecret.SecretType s));
   ("state", IntValue (ServiceCredentialsSecret.State s));
   ("state_description", vstr (ServiceCredentialsSecret.StateDescription s));
   ("updated_at", DateTimeToString (ServiceCredentialsSecret.UpdatedAt s));
   ("versions_total", IntValue (ServiceCredentialsSecret.VersionsTotal s));
   ("ttl", vstr (ServiceCredentialsSecret.TTL s))].

(** [lookup] is what [getSecretByIdOrByName] returned: the secret with its
    region and instance id, or its diagnostics. *)
Definition dataSourceIbmSmServiceCredentialsSecretRead
  (lookup : (SecretIntf * string * string) + list Diagnostic) : M (list Diagnostic) :=
  match lookup with
  | inr diagError => ret diagError
  | inl (ServiceCredentialsSecretI s, region, instanceId) =>
      match ServiceCredentialsSecret.ID s with
      | None => panic "runtime error: invalid memory address or nil pointer dereference"
      | Some sid =>
          let rotation :=
            match ServiceCredentialsSecret.Rotation s with
            | None => Some (VList [])
            | Some (CommonRotationPolicyI p) =>
                Some (VList [VMap (dataSourceIbmSmServiceCredentialsSecretRotationPolicyToMap p)])
            | Some OtherRotationPolicyI => None
            end in
          let! d := getD in
          let d := Set_ "region" (VString region)
                     (SetId (region +++ "/" +++ instanceId +++ "/" +++ sid) d) in
          let d := set_all (ds_read_attrs s) d in
          match rotation with
          | None =>
              let! _ := putD d in
              panic "interface conversion: secretsmanagerv2.RotationPolicyIntf is not *secretsmanagerv2.CommonRotationPolicy"
          | Some rot =>
              let! _ := putD (set_all [("rotation", rot);
                                       ("next_rotation_date",
                                        DateTimeToString (ServiceCredentialsSecret.NextRotationDate s))] d) in
              ret []
          end
      end
  | inl (_, _, _) =>
      panic "interface conversion: secretsmanagerv2.SecretIntf is not *secretsmanagerv2.ServiceCredentialsSecret"
  end.

(* ------------------------------------------------------------------ *)
(** ** Sample inputs *)

Definition sample_region (_ : ResourceData) : string := "us-south".

(** A parser accepting one timestamp, enough to drive the samples. *)
Definition sample_parse (s : string) : DateTime + string :=
  if String.eqb s "2030-01-01T00:00:00Z" then inl s
  else inr ("parsing time " +++ quote +++ s +++ quote +++ " as " +++ quote +++
            "2006-01-02T15:04:05Z07:00" +++ quote +++ ": cannot parse")%string.

Definition secret_in (id sd : string) : ArbitrarySecret.t :=
  {| ArbitrarySecret.ID := Some id; ArbitrarySecret.CreatedBy := None;
     ArbitrarySecret.CreatedAt := None; ArbitrarySecret.Crn := None;
     ArbitrarySecret.Downloaded := None; ArbitrarySecret.LocksTotal := None;
     ArbitrarySecret.Name := Some "db-password"; ArbitrarySecret.SecretGroupID := Some "default";
     ArbitrarySecret.SecretType := Some "arbitrary"; ArbitrarySecret.State := None;
     ArbitrarySecret.StateDescription := Some sd; ArbitrarySecret.UpdatedAt := None;
     ArbitrarySecret.VersionsTotal := None; ArbitrarySecret.CustomMetadata := None;
     ArbitrarySecret.Description := None; ArbitrarySecret.Labels := None;
     ArbitrarySecret.ExpirationDate := None; ArbitrarySecret.Payload := Some "s3cr3t" |}.

Definition resp (code : Z) : option Response := Some {| StatusCode := code; resp_text := "response" |}.

Definition ok_answer (s : ArbitrarySecret.t) : answer :=
  {| ans_result := Some (ArbitrarySecretI s); ans_response := resp 200; ans_err := None |}.

Definition fail_answer (code : Z) (msg : string) : answer :=
  {| ans_result := None; ans_response := resp code;
     ans_err := Some {| err_msg := msg; err_request_failure := None |} |}.

Definition sample_config : gmap string value :=
  list_to_map [("name", VString "db-password"); ("payload", VString "s3cr3t");
               ("instance_id", VString "inst"); ("labels", VList [VString "prod"])].

Definition sample_d (id : string) (attrs old : gmap string value) : ResourceData :=
  {| rd_id := id; rd_attrs := attrs; rd_old := old; rd_timeout_create := 1200 |}.

Definition sample_world (d : ResourceData) (server : list answer) (polls : nat) : world :=
  {| w_d := d; w_session_err := None;
     w_server := fun n => nth n server (fail_answer 503 "Service Unavailable");
     w_trace := []; w_polls := polls |}.

Definition result_of {A} (r : exec A * world) : exec A := fst r.
Definition trace_of {A} (r : exec A * world) : list (sdk_call * bool) := w_trace (snd r).
Definition id_of {A} (r : exec A * world) : string := rd_id (w_d (snd r)).

(* ================================================================== *)
(** * Proofs *)

(** ** The monad and the trace *)

Definition add_trace (w : world) (tr : list (sdk_call * bool)) : world :=
  {| w_d := w_d w; w_session_err := w_session_err w; w_server := w_server w;
     w_trace := w_trace w ++ tr; w_polls := w_polls w |}.

Definition failed (a : answer) : bool := bool_decide (is_Some (ans_err a)).

Lemma call_eq (c : sdk_call) (w : world) :
  call c w = (Done (w_server w (length (w_trace w))),
              add_trace w [(c, failed (w_server w (length (w_trace w))))]).
Proof. reflexivity. Qed.

Lemma add_trace_app (w : world) (t1 t2 : list (sdk_call * bool)) :
  add_trace (add_trace w t1) t2 = add_trace w (t1 ++ t2).
Proof. unfold add_trace; simpl. by rewrite app_assoc. Qed.

Lemma add_trace_nil (w : world) : add_trace w [] = w.
Proof. destruct w; unfold add_trace; simpl. by rewrite app_nil_r. Qed.

Lemma bind_done {A B} (m : M A) (k : A -> M B) (w w' : world) (a : A) :
  m w = (Done a, w') -> bind m k w = k a w'.
Proof. intros H. unfold bind. by rewrite H. Qed.

Lemma length_add_trace (w : world) tr :
  length (w_trace (add_trace w tr)) = length (w_trace w) + length tr.
Proof. unfold add_trace; simpl. apply length_app. Qed.

(** ** Splitting the resource ID *)

Definition no_slash (s : string) : bool :=
  forallb (fun c => negb (Ascii.eqb c "/"%char)) (list_ascii_of_string s).

Lemma append_assoc_str (a b c : string) : a +++ (b +++ c) = (a +++ b) +++ c.
Proof. induction a as [|x a IH]; [reflexivity | exact (f_equal (String x) IH)]. Qed.

Lemma append_nil_str (a : string) : a +++ "" = a.
Proof. induction a as [|x a IH]; [reflexivity | exact (f_equal (String x) IH)]. Qed.

Lemma split_slash_acc_app (s rest cur : string) :
  no_slash s = true ->
  split_slash_acc (s +++ rest) cur = split_slash_acc rest (cur +++ s).
Proof.
  revert cur. induction s as [|c s IH]; intros cur Hs.
  - change (split_slash_acc rest cur = split_slash_acc rest (cur +++ "")).
    by rewrite append_nil_str.
  - unfold no_slash in Hs; simpl in Hs. apply andb_prop in Hs as [Hc Hs].
    apply negb_true_iff in Hc.
    change (split_slash_acc (String c (s +++ rest)) cur = split_slash_acc rest (cur +++ String c s)).
    simpl split_slash_acc. rewrite Hc. rewrite IH by exact Hs.
    by rewrite <- append_assoc_str.
Qed.

Lemma split_slash_acc_sep (rest cur : string) :
  split_slash_acc ("/" +++ rest) cur = cur :: split_slash_acc rest "".
Proof. reflexivity. Qed.

Lemma Split_id (region instanceId secretId : string) :
  no_slash region = true -> no_slash instanceId = true -> no_slash secretId = true ->
  Split (region +++ "/" +++ instanceId +++ "/" +++ secretId) = [region; instanceId; secretId].
Proof.
  intros Hr Hi Hs. unfold Split.
  rewrite split_slash_acc_app by exact Hr. rewrite split_slash_acc_sep.
  rewrite split_slash_acc_app by exact Hi. rewrite split_slash_acc_sep.
  rewrite <- (append_nil_str secretId) at 1.
  rewrite split_slash_acc_app by exact Hs. reflexivity.
Qed.

(** ** The creation poll *)

Lemma failStates_spec (s : string) : failStates s = String.eqb s "destroyed".
Proof.
  unfold failStates. simpl. rewrite lookup_insert. case_decide as Heq.
  - subst. done.
  - rewrite lookup_empty. symmetry. apply String.eqb_neq. congruence.
Qed.

Definition poll_answer (s : ArbitrarySecret.t) (r : option Response) : answer :=
  {| ans_result := Some (ArbitrarySecretI s); ans_response := r; ans_err := None |}.

(** The [i]-th SDK call from now is answered with a secret in state [st]. *)
Definition reports (w : world) (i : nat) (st : string) : Prop :=
  exists s r, w_server w (length (w_trace w) + i) = poll_answer s r /\
              ArbitrarySecret.StateDescription s = Some st.

Lemma refresh_reports (sid : string) (w : world) (s : ArbitrarySecret.t)
      (r : option Response) (st : string) :
  w_server w (length (w_trace w)) = poll_answer s r ->
  ArbitrarySecret.StateDescription s = Some st ->
  refresh sid w =
    (Done (Some s, st, if String.eqb st "destroyed" then Some (instance_failed_error r) else None),
     add_trace w [(GetSecret sid, false)]).
Proof.
  intros Hs Hst. unfold refresh, bind, call. rewrite Hs. simpl.
  rewrite Hst, failStates_spec. destruct (String.eqb st "destroyed"); reflexivity.
Qed.

Lemma wait_loop_step (conf : StateChangeConf) (n nf : nat) (last : string) (w w' : world)
      res st err :
  Refresh conf w = (Done (res, st, err), w') ->
  wait_loop conf (S n) nf last w =
    (match err with
     | Some e => ret (inr (RefreshError e))
     | None =>
         match res with
         | None =>
             if Nat.ltb NotFoundChecks (S nf) then ret (inr NotFoundError)
             else wait_loop conf n (S nf) st
         | Some o =>
             if string_in st (Target conf) then ret (inl (Some o))
             else if string_in st (Pending conf) then wait_loop conf n 0 st
             else ret (inr (UnexpectedStateError st))
         end
     end) w'.
Proof. intros H. cbn [wait_loop]. unfold bind. rewrite H. reflexivity. Qed.

Lemma wait_loop_pending (d : ResourceData) (sid : string) (j fuel nf : nat)
      (last : string) (w : world) :
  (forall i, i < j -> reports w i "pre_activation") ->
  wait_loop (createStateConf d sid) (j + fuel) nf last w =
  wait_loop (createStateConf d sid) fuel
    (match j with O => nf | S _ => 0 end)
    (match j with O => last | S _ => "pre_activation" end)
    (add_trace w (repeat (GetSecret sid, false) j)).
Proof.
  revert nf last w. induction j as [|j IH]; intros nf last w Hrep.
  - simpl. by rewrite add_trace_nil.
  - destruct (Hrep 0 ltac:(lia)) as (s & r & Hs & Hst).
    rewrite Nat.add_0_r in Hs.
    change (S j + fuel) with (S (j + fuel)).
    rewrite (wait_loop_step (createStateConf d sid) _ _ _ _ _ _ _ _
               (refresh_reports sid w s r _ Hs Hst)).
    simpl. rewrite IH.
    + rewrite add_trace_app. destruct j; reflexivity.
    + intros i Hi. destruct (Hrep (S i) ltac:(lia)) as (s' & r' & Hs' & Hst').
      exists s', r'. split; [|exact Hst'].
      rewrite length_add_trace. simpl. rewrite <- Hs'. f_equal. lia.
Qed.

Lemma wait_entry (w : world) (region inst sid : string) (rest : list string) :
  Split (Id (w_d w)) = region :: inst :: sid :: rest ->
  waitForIbmSmArbitrarySecretCreate w =
    wait_loop (createStateConf (w_d w) sid) (w_polls w) 0 "" w.
Proof.
  intros H. unfold waitForIbmSmArbitrarySecretCreate, WaitForState, bind, getD, pollBudget.
  rewrite H. reflexivity.
Qed.

(** The outcome of the poll once the first non-pending state is seen. *)
Definition poll_result (s : ArbitrarySecret.t) (r : option Response) (st : string)
  : option ArbitrarySecret.t + wait_error :=
  if String.eqb st "active" then inl (Some s)
  else if String.eqb st "destroyed" then inr (RefreshError (instance_failed_error r))
  else inr (UnexpectedStateError st).

Lemma wait_loop_final (d : ResourceData) (sid : string) (n nf : nat) (last : string)
      (w : world) (s : ArbitrarySecret.t) (r : option Response) (st : string) :
  w_server w (length (w_trace w)) = poll_answer s r ->
  ArbitrarySecret.StateDescription s = Some st ->
  st <> "pre_activation" ->
  wait_loop (createStateConf d sid) (S n) nf last w =
    (Done (poll_result s r st), add_trace w [(GetSecret sid, false)]).
Proof.
  intros Hs Hst Hne.
  rewrite (wait_loop_step (createStateConf d sid) _ _ _ _ _ _ _ _
             (refresh_reports sid w s r st Hs Hst)).
  unfold poll_result. destruct (String.eqb_spec st "destroyed") as [->|Hd].
  - reflexivity.
  - cbn [createStateConf Target Pending string_in existsb].
    rewrite !orb_false_r.
    destruct (String.eqb_spec st "active") as [->|Ha]; [reflexivity|].
    apply String.eqb_neq in Hne. rewrite Hne. reflexivity.
Qed.

(** The wait, once [j] polls reported "pre_activation" and the next one
    reports another state. *)
Lemma wait_first_non_pending (w : world) (region inst sid : string) (rest : list string)
      (j : nat) (s : ArbitrarySecret.t) (r : option Response) (st : string) :
  Split (Id (w_d w)) = region :: inst :: sid :: rest ->
  (forall i, i < j -> reports w i "pre_activation") ->
  j < w_polls w ->
  w_server w (length (w_trace w) + j) = poll_answer s r ->
  ArbitrarySecret.StateDescription s = Some st ->
  st <> "pre_activation" ->
  waitForIbmSmArbitrarySecretCreate w =
    (Done (poll_result s r st), add_trace w (repeat (GetSecret sid, false) (S j))).
Proof.
  intros Hid Hrep Hlt Hs Hst Hne. rewrite (wait_entry w region inst sid rest Hid).
  replace (w_polls w) with (j + S (w_polls w - S j)) by lia.
  rewrite wait_loop_pending by exact Hrep.
  rewrite (wait_loop_final (w_d w) sid _ _ _ _ s r st); [| |exact Hst|exact Hne].
  - rewrite add_trace_app. simpl. by rewrite repeat_cons.
  - rewrite length_add_trace, repeat_length. exact Hs.
Qed.

(* ------------------------------------------------------------------ *)
(** ** C1: the creation poll *)

Definition poll_world (states : list string) (polls : nat) : world :=
  sample_world (sample_d "us-south/inst/sid" sample_config ∅)
    (map (fun st => ok_answer (secret_in "sid" st)) states) polls.

(** C1 (counterexample): with time to spare, a poll that reports a state
    outside {pre_activation, active}, here "deactivated", ends the wait at
    once with an unexpected state error: the target was never reached, yet
    the error is not a timeout error. *)
Lemma C1_unexpected_state_not_timeout :
  result_of (waitForIbmSmArbitrarySecretCreate (poll_world ["pre_activation"; "deactivated"] 5))
    = Done (inr (UnexpectedStateError "deactivated")) /\
  length (trace_of (waitForIbmSmArbitrarySecretCreate (poll_world ["pre_activation"; "deactivated"] 5)))
    = 2.
Proof. split; vm_compute; reflexivity. Qed.

(** C1 (amended): [waitForIbmSmArbitrarySecretCreate] polls with the
    configuration Pending = [pre_activation], Target = [active], Delay 0,
    MinTimeout 5 s and Timeout the resource's create timeout. While every
    poll reports "pre_activation" it keeps polling, and if all polls that
    fit in the timeout report it the wait ends with a timeout error. The
    first poll reporting another state ends the wait with no further call:
    success with the secret if it is "active" (whether or not
    "pre_activation" was seen before), the failure error if it is
    "destroyed", an unexpected state error otherwise. The behaviour when
    GetSecret itself fails is left out. *)
Theorem waitForIbmSmArbitrarySecretCreate_outcome (w : world) (region inst sid : string)
        (rest : list string) (j : nat) :
  Split (Id (w_d w)) = region :: inst :: sid :: rest ->
  (forall i, i < j -> reports w i "pre_activation") ->
  j <= w_polls w ->
  Pending (createStateConf (w_d w) sid) = ["pre_activation"] /\
  Target (createStateConf (w_d w) sid) = ["active"] /\
  Delay (createStateConf (w_d w) sid) = 0%Z /\
  MinTimeout (createStateConf (w_d w) sid) = 5%Z /\
  Timeout (createStateConf (w_d w) sid) = rd_timeout_create (w_d w) /\
  (j = w_polls w ->
   waitForIbmSmArbitrarySecretCreate w =
     (Done (inr (TimeoutError (match j with O => "" | S _ => "pre_activation" end))),
      add_trace w (repeat (GetSecret sid, false) j))) /\
  (forall s r st,
     j < w_polls w ->
     w_server w (length (w_trace w) + j) = poll_answer s r ->
     ArbitrarySecret.StateDescription s = Some st ->
     st <> "pre_activation" ->
     waitForIbmSmArbitrarySecretCreate w =
       (Done (poll_result s r st), add_trace w (repeat (GetSecret sid, false) (S j)))).
Proof.
  intros Hid Hrep Hj.
  do 5 (split; [reflexivity|]). split.
  - intros Heq. rewrite (wait_entry w region inst sid rest Hid).
    rewrite <- Heq, <- (Nat.add_0_r j), wait_loop_pending by exact Hrep.
    rewrite Nat.add_0_r. destruct j; reflexivity.
  - intros s r st Hlt Hs Hst Hne.
    exact (wait_first_non_pending w region inst sid rest j s r st Hid Hrep Hlt Hs Hst Hne).
Qed.

Lemma waitForIbmSmArbitrarySecretCreate_outcome_witness :
  let w := poll_world ["pre_activation"; "active"] 3 in
  Split (Id (w_d w)) = ["us-south"; "inst"; "sid"] /\
  (forall i, i < 1 -> reports w i "pre_activation") /\
  1 <= w_polls w /\
  waitForIbmSmArbitrarySecretCreate w =
    (Done (poll_result (secret_in "sid" "active") (resp 200) "active"),
     add_trace w (repeat (GetSecret "sid", false) 2)).
Proof.
  intros w.
  assert (Hid : Split (Id (w_d w)) = ["us-south"; "inst"; "sid"]) by reflexivity.
  assert (Hrep : forall i, i < 1 -> reports w i "pre_activation").
  { intros i Hi. assert (i = 0) as -> by lia.
    exists (secret_in "sid" "pre_activation"), (resp 200). split; reflexivity. }
  split; [exact Hid|]. split; [exact Hrep|]. split; [simpl; lia|].
  destruct (waitForIbmSmArbitrarySecretCreate_outcome w "us-south" "inst" "sid" [] 1 Hid Hrep
              ltac:(simpl; lia)) as (_ & _ & _ & _ & _ & _ & Hfin).
  apply (Hfin (secret_in "sid" "active") (resp 200) "active"); [simpl; lia|reflexivity|reflexivity|discriminate].
Defined.

(* ------------------------------------------------------------------ *)
(** ** Create, up to the wait *)

Definition with_d (w : world) (d : ResourceData) : world :=
  {| w_d := d; w_session_err := w_session_err w; w_server := w_server w;
     w_trace := w_trace w; w_polls := w_polls w |}.

(** What Create does with the outcome of the wait. *)
Definition create_after_wait (r : option ArbitrarySecret.t + wait_error) : M (list Diagnostic) :=
  match r with
  | inr werr =>
      let! d' := getD in
      ret (FromErr (Errorf ("Error waiting for resource IbmSmArbitrarySecret (" +++
                            Id d' +++ ") to be created: " +++ wait_error_msg werr)))
  | inl _ => resourceIbmSmArbitrarySecretRead
  end.

Definition created_d (getRegion : ResourceData -> string) (d : ResourceData) (sid : string)
  : ResourceData :=
  Set_ "secret_id" (VString sid)
    (SetId (getRegion d +++ "/" +++ Get_string d "instance_id" +++ "/" +++ sid) d).

Lemma create_unfold getRegion parse (w : world) proto (secret : ArbitrarySecret.t) sid rc :
  w_session_err w = None ->
  resourceIbmSmArbitrarySecretMapToArbitrarySecretPrototype parse (w_d w) = inl proto ->
  w_server w (length (w_trace w)) =
    {| ans_result := Some (ArbitrarySecretI secret); ans_response := rc; ans_err := None |} ->
  ArbitrarySecret.ID secret = Some sid ->
  resourceIbmSmArbitrarySecretCreate getRegion parse w =
    bind waitForIbmSmArbitrarySecretCreate create_after_wait
      (add_trace (with_d w (created_d getRegion (w_d w) sid)) [(CreateSecretWithContext proto, false)]).
Proof.
  intros Hs Hm Hc Hid.
  unfold resourceIbmSmArbitrarySecretCreate, bind at 1, SecretsManagerV2. rewrite Hs.
  unfold bind at 1, getD. rewrite Hm.
  unfold bind at 1, call. rewrite Hc. simpl. rewrite Hid.
  unfold bind at 1, putD. reflexivity.
Qed.

Lemma reports_after_create (w : world) d tr i st :
  length tr = 1 ->
  reports w (S i) st -> reports (add_trace (with_d w d) tr) i st.
Proof.
  intros Hl (s & r & Hs & Hst). exists s, r. split; [|exact Hst].
  rewrite length_add_trace, Hl. simpl. rewrite <- Hs. f_equal. lia.
Qed.

Lemma Split_created_d getRegion (d : ResourceData) sid :
  no_slash (getRegion d) = true -> no_slash (Get_string d "instance_id") = true ->
  no_slash sid = true ->
  Split (Id (created_d getRegion d sid)) = [getRegion d; Get_string d "instance_id"; sid].
Proof. intros. unfold created_d, Id. simpl. by apply Split_id. Qed.

(* ------------------------------------------------------------------ *)
(** ** C2: a failure state ends the creation *)

(** C2: the fail-state set of the poll is exactly {"destroyed"}. When,
    after a successful CreateSecret and [j] polls reporting
    "pre_activation", a poll reports "destroyed", the wait ends with an
    error and Create returns an error diagnostic wrapping it; no SDK call
    follows that poll. *)
Theorem create_destroyed_is_terminal getRegion parse (w : world) proto
        (secret : ArbitrarySecret.t) (sid : string) (rc : option Response) (j : nat)
        (s : ArbitrarySecret.t) (r : option Response) :
  w_session_err w = None ->
  resourceIbmSmArbitrarySecretMapToArbitrarySecretPrototype parse (w_d w) = inl proto ->
  w_server w (length (w_trace w)) =
    {| ans_result := Some (ArbitrarySecretI secret); ans_response := rc; ans_err := None |} ->
  ArbitrarySecret.ID secret = Some sid ->
  no_slash (getRegion (w_d w)) = true ->
  no_slash (Get_string (w_d w) "instance_id") = true ->
  no_slash sid = true ->
  (forall i, i < j -> reports w (S i) "pre_activation") ->
  j < w_polls w ->
  w_server w (length (w_trace w) + S j) = poll_answer s r ->
  ArbitrarySecret.StateDescription s = Some "destroyed" ->
  (forall st, failStates st = true <-> st = "destroyed") /\
  exists w',
    resourceIbmSmArbitrarySecretCreate getRegion parse w =
      (Done (FromErr (Errorf ("Error waiting for resource IbmSmArbitrarySecret (" +++
                              (getRegion (w_d w) +++ "/" +++ Get_string (w_d w) "instance_id" +++
                               "/" +++ sid) +++ ") to be created: " +++
                              err_msg (instance_failed_error r)))), w') /\
    w_trace w' = (w_trace w ++ [(CreateSecretWithContext proto, false)] ++
                  repeat (GetSecret sid, false) (S j))%list.
Proof.
  intros Hs Hm Hc Hid Hr Hi Hsid Hrep Hlt Hd Hst. split.
  { intros st. rewrite failStates_spec. apply String.eqb_eq. }
  rewrite (create_unfold getRegion parse w proto secret sid rc Hs Hm Hc Hid).
  set (w1 := add_trace (with_d w (created_d getRegion (w_d w) sid))
                       [(CreateSecretWithContext proto, false)]).
  assert (Hw : waitForIbmSmArbitrarySecretCreate w1 =
                 (Done (poll_result s r "destroyed"), add_trace w1 (repeat (GetSecret sid, false) (S j)))).
  { apply (wait_first_non_pending w1 (getRegion (w_d w)) (Get_string (w_d w) "instance_id")
             sid [] j s r "destroyed").
    - exact (Split_created_d getRegion (w_d w) sid Hr Hi Hsid).
    - intros i Hi'. apply reports_after_create; [reflexivity|]. exact (Hrep i Hi').
    - exact Hlt.
    - unfold w1. rewrite length_add_trace. simpl. rewrite <- Hd. f_equal. lia.
    - exact Hst.
    - discriminate. }
  rewrite (bind_done _ _ _ _ _ Hw).
  eexists. split; [reflexivity|]. simpl. by rewrite <- app_assoc.
Qed.

Lemma create_destroyed_is_terminal_witness :
  let w := sample_world (sample_d "" sample_config ∅)
             [ok_answer (secret_in "sid" "pre_activation");
              ok_answer (secret_in "sid" "pre_activation");
              ok_answer (secret_in "sid" "destroyed")] 10 in
  w_session_err w = None /\
  (exists proto, resourceIbmSmArbitrarySecretMapToArbitrarySecretPrototype sample_parse (w_d w) = inl proto) /\
  (forall st, failStates st = true <-> st = "destroyed") /\
  exists w',
    resourceIbmSmArbitrarySecretCreate sample_region sample_parse w =
      (Done (FromErr (Errorf ("Error waiting for resource IbmSmArbitrarySecret (" +++
                              "us-south" +++ "/" +++ "inst" +++ "/" +++ "sid" +++
                              ") to be created: " +++ err_msg (instance_failed_error (resp 200))))), w') /\
    length (w_trace w') = 3.
Proof.
  intros w.
  destruct (create_destroyed_is_terminal sample_region sample_parse w
              (match resourceIbmSmArbitrarySecretMapToArbitrarySecretPrototype sample_parse (w_d w) with
               | inl p => p | inr _ => ArbitrarySecretPrototype.empty end)
              (secret_in "sid" "pre_activation") "sid" (resp 200) 1
              (secret_in "sid" "destroyed") (resp 200))
    as [Hf (w' & Hrun & Htr)];
    [reflexivity | reflexivity | reflexivity | reflexivity | reflexivity | reflexivity
    | reflexivity
    | intros i Hi; assert (i = 0) as -> by lia;
      exists (secret_in "sid" "pre_activation"), (resp 200); split; reflexivity
    | simpl; lia | reflexivity | reflexivity |].
  split; [reflexivity|]. split; [eexists; reflexivity|]. split; [exact Hf|].
  exists w'. split; [exact Hrun|]. rewrite Htr. reflexivity.
Defined.

(* ------------------------------------------------------------------ *)
(** ** C3: Read on a GetSecret error *)

Lemma read_unfold (w : world) (region inst sid : string) :
  w_session_err w = None ->
  Split (Id (w_d w)) = [region; inst; sid] ->
  resourceIbmSmArbitrarySecretRead w =
    (let a := w_server w (length (w_trace w)) in
     (match ans_err a with
      | Some e =>
          match ans_response a with
          | Some r =>
              if Z.eqb (StatusCode r) 404 then
                let! _ := putD (SetId "" (w_d w)) in ret []
              else ret (FromErr (failed_msg "GetSecretWithContext" e (ans_response a)))
          | None => ret (FromErr (failed_msg "GetSecretWithContext" e (ans_response a)))
          end
      | None =>
          match ans_result a with
          | Some (ArbitrarySecretI secret) =>
              let! _ := putD (set_all (read_attrs region inst sid secret) (w_d w)) in ret []
          | _ => panic "interface conversion: secretsmanagerv2.SecretIntf is not *secretsmanagerv2.ArbitrarySecret"
          end
      end) (add_trace w [(GetSecretWithContext sid, failed a)])).
Proof.
  intros Hs Hid. unfold resourceIbmSmArbitrarySecretRead, bind at 1, SecretsManagerV2.
  rewrite Hs. unfold bind at 1, getD. rewrite Hid. reflexivity.
Qed.

(** C3: when GetSecretWithContext fails with an HTTP 404 response, Read
    sets the resource ID to "" and returns no diagnostic; on any other
    failure it leaves the resource data, ID included, as it was and returns
    the error diagnostic. *)
Theorem read_get_secret_error (w : world) (region inst sid : string) (e : error)
        (res : option SecretIntf) (rr : option Response) :
  w_session_err w = None ->
  Split (Id (w_d w)) = [region; inst; sid] ->
  w_server w (length (w_trace w)) = {| ans_result := res; ans_response := rr; ans_err := Some e |} ->
  (forall r, rr = Some r -> StatusCode r = 404%Z ->
     resourceIbmSmArbitrarySecretRead w =
       (Done [], add_trace (with_d w (SetId "" (w_d w))) [(GetSecretWithContext sid, true)])) /\
  ((forall r, rr = Some r -> StatusCode r <> 404%Z) ->
     resourceIbmSmArbitrarySecretRead w =
       (Done (FromErr (failed_msg "GetSecretWithContext" e rr)),
        add_trace w [(GetSecretWithContext sid, true)]) /\
     FromErr (failed_msg "GetSecretWithContext" e rr) <> []).
Proof.
  intros Hs Hid Ha. rewrite (read_unfold w region inst sid Hs Hid), Ha. simpl. split.
  - intros r -> H404. rewrite H404. simpl. reflexivity.
  - intros Hn. split; [|discriminate].
    destruct rr as [r|]; [|reflexivity].
    specialize (Hn r eq_refl). apply Z.eqb_neq in Hn. rewrite Hn. reflexivity.
Qed.

Lemma read_get_secret_error_witness :
  let w := sample_world (sample_d "us-south/inst/sid" sample_config ∅)
             [fail_answer 404 "Not Found"] 1 in
  w_session_err w = None /\
  Split (Id (w_d w)) = ["us-south"; "inst"; "sid"] /\
  id_of (resourceIbmSmArbitrarySecretRead w) = "" /\
  result_of (resourceIbmSmArbitrarySecretRead w) = Done [].
Proof.
  intros w.
  destruct (read_get_secret_error w "us-south" "inst" "sid"
              {| err_msg := "Not Found"; err_request_failure := None |} None (resp 404))
    as [H404 _]; [reflexivity | reflexivity | reflexivity |].
  rewrite (H404 _ eq_refl eq_refl). repeat split; reflexivity.
Defined.

(* ------------------------------------------------------------------ *)
(** ** C4: the service credentials data source *)

Definition sample_credentials : ServiceCredentialsSecretCredentials.t :=
  {| ServiceCredentialsSecretCredentials.Apikey := Some "key-123";
     ServiceCredentialsSecretCredentials.CosHmacKeys := None;
     ServiceCredentialsSecretCredentials.Endpoints := None;
     ServiceCredentialsSecretCredentials.IamApikeyDescription := None;
     ServiceCredentialsSecretCredentials.IamApikeyName := Some "key-name";
     ServiceCredentialsSecretCredentials.IamRoleCRN := None;
     ServiceCredentialsSecretCredentials.IamServiceidCRN := None;
     ServiceCredentialsSecretCredentials.ResourceInstanceID := None |}.

Definition sample_source_service : ServiceCredentialsSecretSourceService.t :=
  {| ServiceCredentialsSecretSourceService.InstanceCrn := Some "crn:v1:instance";
     ServiceCredentialsSecretSourceService.RoleCrn := Some "crn:v1:role:Writer";
     ServiceCredentialsSecretSourceService.IamApikeyName := None;
     ServiceCredentialsSecretSourceService.IamApikeyDescription := None;
     ServiceCredentialsSecretSourceService.IamRoleCrn := None;
     ServiceCredentialsSecretSourceService.IamServiceidCrn := None;
     ServiceCredentialsSecretSourceService.ResourceKeyCrn := None;
     ServiceCredentialsSecretSourceService.ResourceKeyName := None;
     ServiceCredentialsSecretSourceService.Parameters := None |}.

Definition sample_sc_secret : ServiceCredentialsSecret.t :=
  {| ServiceCredentialsSecret.ID := Some "sc-id";
     ServiceCredentialsSecret.CreatedBy := Some "iam-user";
     ServiceCredentialsSecret.CreatedAt := Some "2024-01-01T00:00:00Z";
     ServiceCredentialsSecret.Crn := Some "crn:v1:secret";
     ServiceCredentialsSecret.CustomMetadata := None;
     ServiceCredentialsSecret.Description := None;
     ServiceCredentialsSecret.Downloaded := Some false;
     ServiceCredentialsSecret.Labels := None;
     ServiceCredentialsSecret.LocksTotal := Some 0%Z;
     ServiceCredentialsSecret.Name := Some "cos-creds";
     ServiceCredentialsSecret.SecretGroupID := Some "default";
     ServiceCredentialsSecret.SecretType := Some "service_credentials";
     ServiceCredentialsSecret.State := Some 1%Z;
     ServiceCredentialsSecret.StateDescription := Some "active";
     ServiceCredentialsSecret.UpdatedAt := Some "2024-01-01T00:00:00Z";
     ServiceCredentialsSecret.VersionsTotal := Some 1%Z;
     ServiceCredentialsSecret.VersionCustomMetadata := Some [("owner", VString "team-a")];
     ServiceCredentialsSecret.TTL := Some "1800";
     ServiceCredentialsSecret.Rotation := None;
     ServiceCredentialsSecret.NextRotationDate := None;
     ServiceCredentialsSecret.Credentials := Some sample_credentials;
     ServiceCredentialsSecret.SourceService := Some sample_source_service |}.

Definition ds_world : world := sample_world (sample_d "" ∅ ∅) [] 0.

Definition ds_run : exec (list Diagnostic) * world :=
  dataSourceIbmSmServiceCredentialsSecretRead
    (inl (ServiceCredentialsSecretI sample_sc_secret, "us-south", "inst")) ds_world.

(** C4 (code bug): the schema declares "credentials", "source_service"
    and "version_custom_metadata" Computed, yet a successful read of a
    secret whose response carries all three leaves them unset. *)
Theorem ds_read_leaves_computed_blocks_unset :
  result_of ds_run = Done [] /\
  option_map Computed (schema_lookup "credentials" DataSourceIbmSmServiceCredentialsSecret_schema) = Some true /\
  option_map Computed (schema_lookup "source_service" DataSourceIbmSmServiceCredentialsSecret_schema) = Some true /\
  option_map Computed (schema_lookup "version_custom_metadata" DataSourceIbmSmServiceCredentialsSecret_schema) = Some true /\
  ServiceCredentialsSecret.Credentials sample_sc_secret <> None /\
  ServiceCredentialsSecret.SourceService sample_sc_secret <> None /\
  ServiceCredentialsSecret.VersionCustomMetadata sample_sc_secret <> None /\
  rd_attrs (w_d (snd ds_run)) !! "credentials" = None /\
  rd_attrs (w_d (snd ds_run)) !! "source_service" = None /\
  rd_attrs (w_d (snd ds_run)) !! "version_custom_metadata" = None.
Proof. vm_compute. repeat split; discriminate. Qed.

(* ------------------------------------------------------------------ *)
(** ** C5: the create request prototype *)

Definition cleared_config : gmap string value :=
  list_to_map [("name", VString "db-password"); ("payload", VString "s3cr3t");
               ("description", VString ""); ("labels", VList [])].

(** C5 (counterexample): a description written as "" and an empty label
    list are in the configuration, yet the prototype carries neither:
    [d.GetOk] treats zero values as unset. *)
Lemma C5_zero_values_not_copied :
  rd_attrs (sample_d "" cleared_config ∅) !! "description" = Some (VString "") /\
  rd_attrs (sample_d "" cleared_config ∅) !! "labels" = Some (VList []) /\
  exists p,
    resourceIbmSmArbitrarySecretMapToArbitrarySecretPrototype sample_parse
      (sample_d "" cleared_config ∅) = inl p /\
    ArbitrarySecretPrototype.Description p = None /\
    ArbitrarySecretPrototype.Labels p = None.
Proof. vm_compute. split; [reflexivity|]. split; [reflexivity|]. eexists. repeat split. Qed.

Lemma GetOk_spec (d : ResourceData) (k : string) :
  GetOk d k = true <-> exists v, rd_attrs d !! k = Some v /\ value_nonzero v = true.
Proof.
  unfold GetOk. destruct (rd_attrs d !! k) as [v|].
  - split; [intros H; by exists v | intros (v' & [= ->] & H); exact H].
  - split; [discriminate | intros (v' & H & _); discriminate].
Qed.

(** C5 (amended): the prototype has SecretType "arbitrary"; each of name,
    payload, custom_metadata, description, expiration_date, labels,
    secret_group_id and version_custom_metadata is copied exactly when
    [d.GetOk] reports it set, that is present with a non-zero value (a
    non-empty string, list or map); labels are converted with fmt.Sprint
    and the date is the RFC 3339 parse of the text. When expiration_date is
    set but does not parse, no prototype is built and the error
    'Failed to get "expiration_date". Error: <parse error>' is returned. *)
Theorem prototype_mapping (parse : string -> DateTime + string) (d : ResourceData) :
  (forall k, GetOk d k = true <-> exists v, rd_attrs d !! k = Some v /\ value_nonzero v = true) /\
  match resourceIbmSmArbitrarySecretMapToArbitrarySecretPrototype parse d with
  | inl p =>
      ArbitrarySecretPrototype.SecretType p = Some "arbitrary" /\
      ArbitrarySecretPrototype.Name p =
        (if GetOk d "name" then Some (Get_string d "name") else None) /\
      ArbitrarySecretPrototype.Payload p =
        (if GetOk d "payload" then Some (Get_string d "payload") else None) /\
      ArbitrarySecretPrototype.CustomMetadata p =
        (if GetOk d "custom_metadata" then Some (Get_map d "custom_metadata") else None) /\
      ArbitrarySecretPrototype.Description p =
        (if GetOk d "description" then Some (Get_string d "description") else None) /\
      (if GetOk d "expiration_date" then
         exists t, parse (Get_string d "expiration_date") = inl t /\
                   ArbitrarySecretPrototype.ExpirationDate p = Some t
       else ArbitrarySecretPrototype.ExpirationDate p = None) /\
      ArbitrarySecretPrototype.Labels p =
        (if GetOk d "labels" then Some (map Sprint (Get_list d "labels")) else None) /\
      ArbitrarySecretPrototype.SecretGroupID p =
        (if GetOk d "secret_group_id" then Some (Get_string d "secret_group_id") else None) /\
      ArbitrarySecretPrototype.VersionCustomMetadata p =
        (if GetOk d "version_custom_metadata" then Some (Get_map d "version_custom_metadata")
         else None)
  | inr e =>
      GetOk d "expiration_date" = true /\
      exists msg, parse (Get_string d "expiration_date") = inr msg /\
                  e = Errorf ("Failed to get " +++ quote +++ "expiration_date" +++ quote +++
                              ". Error: " +++ msg)
  end.
Proof.
  split; [exact (GetOk_spec d)|].
  unfold resourceIbmSmArbitrarySecretMapToArbitrarySecretPrototype.
  destruct (GetOk d "expiration_date") eqn:Hexp.
  - destruct (parse (Get_string d "expiration_date")) as [t|msg] eqn:Hp.
    + cbn. repeat split. eexists; split; [reflexivity|reflexivity].
    + split; [reflexivity|]. by exists msg.
  - cbn. repeat split.
Qed.

(* ------------------------------------------------------------------ *)
(** ** Update and Delete, unfolded *)

Lemma update_unfold (w : world) (region inst sid : string) (rest : list string) :
  w_session_err w = None ->
  Split (Id (w_d w)) = region :: inst :: sid :: rest ->
  resourceIbmSmArbitrarySecretUpdate w =
    (if snd (update_patch (w_d w)) then
       let! a := call (UpdateSecretMetadataWithContext sid (fst (update_patch (w_d w)))) in
       match ans_err a with
       | Some e => ret (FromErr (failed_msg "UpdateSecretMetadataWithContext" e (ans_response a)))
       | None => resourceIbmSmArbitrarySecretRead
       end
     else resourceIbmSmArbitrarySecretRead) w.
Proof.
  intros Hs Hid. unfold resourceIbmSmArbitrarySecretUpdate, bind at 1, SecretsManagerV2.
  rewrite Hs. unfold bind at 1, getD. unfold bind at 1, index3. rewrite Hid. reflexivity.
Qed.

Lemma delete_unfold (w : world) (region inst sid : string) (rest : list string) :
  w_session_err w = None ->
  Split (Id (w_d w)) = region :: inst :: sid :: rest ->
  resourceIbmSmArbitrarySecretDelete w =
    (let a := w_server w (length (w_trace w)) in
     (match ans_err a with
      | Some e => ret (FromErr (failed_msg "DeleteSecretWithContext" e (ans_response a)))
      | None => let! _ := putD (SetId "" (w_d w)) in ret []
      end) (add_trace w [(DeleteSecretWithContext sid, failed a)])).
Proof.
  intros Hs Hid. unfold resourceIbmSmArbitrarySecretDelete, bind at 1, SecretsManagerV2.
  rewrite Hs. unfold bind at 1, getD. unfold bind at 1, index3. rewrite Hid. reflexivity.
Qed.

Lemma create_call_fails getRegion parse (w : world) proto (e : error) :
  w_session_err w = None ->
  resourceIbmSmArbitrarySecretMapToArbitrarySecretPrototype parse (w_d w) = inl proto ->
  ans_err (w_server w (length (w_trace w))) = Some e ->
  resourceIbmSmArbitrarySecretCreate getRegion parse w =
    (Done (FromErr (failed_msg "CreateSecretWithContext" e
                      (ans_response (w_server w (length (w_trace w)))))),
     add_trace w [(CreateSecretWithContext proto, true)]).
Proof.
  intros Hs Hm He.
  unfold resourceIbmSmArbitrarySecretCreate, bind at 1, SecretsManagerV2. rewrite Hs.
  unfold bind at 1, getD. rewrite Hm. unfold bind at 1, call. rewrite He. reflexivity.
Qed.

(* ------------------------------------------------------------------ *)
(** ** C6: how failing SDK calls are reported *)

(** C6 (counterexample): GetSecretWithContext fails with HTTP 404 in Read,
    and Read returns no diagnostic at all. *)
Lemma C6_read_404_no_diagnostic :
  trace_of (resourceIbmSmArbitrarySecretRead
              (sample_world (sample_d "us-south/inst/sid" sample_config ∅)
                 [fail_answer 404 "Not Found"] 0)) = [(GetSecretWithContext "sid", true)] /\
  result_of (resourceIbmSmArbitrarySecretRead
               (sample_world (sample_d "us-south/inst/sid" sample_config ∅)
                  [fail_answer 404 "Not Found"] 0)) = Done [].
Proof. split; vm_compute; reflexivity. Qed.

(** C6 (amended): when the SDK call of Create (CreateSecretWithContext),
    Read (GetSecretWithContext), Update (UpdateSecretMetadataWithContext)
    or Delete (DeleteSecretWithContext) fails with error [e] and response
    [rr], the operation stops and returns the single diagnostic
    "<call> failed <e>\n<rr>"; the one exception is an HTTP 404 on
    GetSecretWithContext in Read, which clears the ID and returns no
    diagnostic. Create and Update end with Read, so the same holds for the
    GetSecretWithContext they issue last. The GetSecret calls of the
    creation poll are not covered. *)
Theorem lifecycle_call_errors (getRegion : ResourceData -> string)
        (parse : string -> DateTime + string) (w : world)
        (region inst sid : string) (rest : list string) (e : error) :
  w_session_err w = None ->
  ans_err (w_server w (length (w_trace w))) = Some e ->
  (forall proto,
     resourceIbmSmArbitrarySecretMapToArbitrarySecretPrototype parse (w_d w) = inl proto ->
     resourceIbmSmArbitrarySecretCreate getRegion parse w =
       (Done (FromErr (failed_msg "CreateSecretWithContext" e
                         (ans_response (w_server w (length (w_trace w)))))),
        add_trace w [(CreateSecretWithContext proto, true)])) /\
  (Split (Id (w_d w)) = [region; inst; sid] ->
   (forall r, ans_response (w_server w (length (w_trace w))) = Some r -> StatusCode r <> 404%Z) ->
   resourceIbmSmArbitrarySecretRead w =
     (Done (FromErr (failed_msg "GetSecretWithContext" e
                       (ans_response (w_server w (length (w_trace w)))))),
      add_trace w [(GetSecretWithContext sid, true)])) /\
  (Split (Id (w_d w)) = [region; inst; sid] ->
   forall r, ans_response (w_server w (length (w_trace w))) = Some r -> StatusCode r = 404%Z ->
   resourceIbmSmArbitrarySecretRead w =
     (Done [], add_trace (with_d w (SetId "" (w_d w))) [(GetSecretWithContext sid, true)])) /\
  (Split (Id (w_d w)) = region :: inst :: sid :: rest ->
   snd (update_patch (w_d w)) = true ->
   resourceIbmSmArbitrarySecretUpdate w =
     (Done (FromErr (failed_msg "UpdateSecretMetadataWithContext" e
                       (ans_response (w_server w (length (w_trace w)))))),
      add_trace w [(UpdateSecretMetadataWithContext sid (fst (update_patch (w_d w))), true)])) /\
  (Split (Id (w_d w)) = region :: inst :: sid :: rest ->
   resourceIbmSmArbitrarySecretDelete w =
     (Done (FromErr (failed_msg "DeleteSecretWithContext" e
                       (ans_response (w_server w (length (w_trace w)))))),
      add_trace w [(DeleteSecretWithContext sid, true)])) /\
  (forall x, create_after_wait (inl x) = resourceIbmSmArbitrarySecretRead).
Proof.
  intros Hs He. split; [|split; [|split; [|split; [|split]]]].
  - intros proto Hm. exact (create_call_fails getRegion parse w proto e Hs Hm He).
  - intros Hid Hn. rewrite (read_unfold w region inst sid Hs Hid). cbv zeta.
    unfold failed. rewrite He.
    destruct (ans_response (w_server w (length (w_trace w)))) as [r|] eqn:Hr; [|reflexivity].
    specialize (Hn r eq_refl). apply Z.eqb_neq in Hn. rewrite Hn. reflexivity.
  - intros Hid r Hr H404. rewrite (read_unfold w region inst sid Hs Hid). cbv zeta.
    unfold failed. rewrite He, Hr. apply Z.eqb_eq in H404. rewrite H404. reflexivity.
  - intros Hid Hch. rewrite (update_unfold w region inst sid rest Hs Hid), Hch.
    unfold bind, call, failed. rewrite He. reflexivity.
  - intros Hid. rewrite (delete_unfold w region inst sid rest Hs Hid). cbv zeta.
    unfold failed. rewrite He. reflexivity.
  - reflexivity.
Qed.

Lemma lifecycle_call_errors_witness :
  let w := sample_world (sample_d "us-south/inst/sid" sample_config ∅)
             [fail_answer 500 "Internal Server Error"] 0 in
  w_session_err w = None /\
  ans_err (w_server w (length (w_trace w))) = Some {| err_msg := "Internal Server Error"; err_request_failure := None |} /\
  resourceIbmSmArbitrarySecretDelete w =
    (Done (FromErr (failed_msg "DeleteSecretWithContext"
                      {| err_msg := "Internal Server Error"; err_request_failure := None |} (resp 500))),
     add_trace w [(DeleteSecretWithContext "sid", true)]).
Proof.
  intros w. split; [reflexivity|]. split; [reflexivity|].
  destruct (lifecycle_call_errors sample_region sample_parse w "us-south" "inst" "sid" []
              {| err_msg := "Internal Server Error"; err_request_failure := None |}
              eq_refl eq_refl) as (_ & _ & _ & _ & Hdel & _).
  exact (Hdel eq_refl).
Defined.

(* ------------------------------------------------------------------ *)
(** ** No call after a failed call *)

(** A trace in which a failed call, if any, is the last one. *)
Fixpoint fail_stops (tr : list (sdk_call * bool)) : bool :=
  match tr with
  | [] => true
  | (_, true) :: rest => match rest with [] => true | _ => false end
  | (_, false) :: rest => fail_stops rest
  end.

Definition has_failure (tr : list (sdk_call * bool)) : bool := existsb snd tr.

(** [m] issues no SDK call. *)
Definition quiet {A} (m : M A) : Prop :=
  forall w, w_trace (snd (m w)) = w_trace w.

(** [m] issues no SDK call, and what it returns satisfies [Q]. *)
Definition quietP {A} (m : M A) (Q : A -> Prop) : Prop :=
  quiet m /\ forall w a, fst (m w) = Done a -> Q a.

(** [m] issues no call after a failed one; if one of its calls failed,
    what it returns satisfies [P]. *)
Definition NRP {A} (m : M A) (P : A -> Prop) : Prop :=
  forall w, exists tr,
    w_trace (snd (m w)) = (w_trace w ++ tr)%list /\ fail_stops tr = true /\
    (has_failure tr = true -> forall a, fst (m w) = Done a -> P a).

Lemma fail_stops_app (t1 t2 : list (sdk_call * bool)) :
  has_failure t1 = false -> fail_stops (t1 ++ t2) = fail_stops t2.
Proof.
  induction t1 as [|[c b] t1 IH]; intros H; [reflexivity|].
  simpl in *. destruct b; [discriminate|]. by apply IH.
Qed.

Lemma has_failure_app (t1 t2 : list (sdk_call * bool)) :
  has_failure (t1 ++ t2) = has_failure t1 || has_failure t2.
Proof. unfold has_failure. apply existsb_app. Qed.

Lemma quiet_ret {A} (a : A) : quiet (ret a).
Proof. intros w. reflexivity. Qed.
Lemma quiet_panic {A} (msg : string) : quiet (A := A) (panic msg).
Proof. intros w. reflexivity. Qed.
Lemma quiet_getD : quiet getD.
Proof. intros w. reflexivity. Qed.
Lemma quiet_putD (d : ResourceData) : quiet (putD d).
Proof. intros w. reflexivity. Qed.
Lemma quiet_SecretsManagerV2 : quiet SecretsManagerV2.
Proof. intros w. reflexivity. Qed.
Lemma quiet_pollBudget : quiet pollBudget.
Proof. intros w. reflexivity. Qed.
Lemma quiet_index3 (l : list string) : quiet (index3 l).
Proof. intros w. destruct l as [|x [|y [|z l]]]; reflexivity. Qed.

Lemma quiet_bind {A B} (m : M A) (k : A -> M B) :
  quiet m -> (forall a, quiet (k a)) -> quiet (bind m k).
Proof.
  intros Hm Hk w. unfold bind. specialize (Hm w).
  destruct (m w) as [[a|p] w'] eqn:E; simpl in *; [by rewrite Hk|exact Hm].
Qed.

Lemma quietP_ret {A} (a : A) (Q : A -> Prop) : Q a -> quietP (ret a) Q.
Proof. intros HQ. split; [apply quiet_ret|]. intros w b [= <-]. exact HQ. Qed.
Lemma quietP_panic {A} (msg : string) (Q : A -> Prop) : quietP (panic msg) Q.
Proof. split; [apply quiet_panic|]. intros w b [=]. Qed.
Lemma quietP_bind {A B} (m : M A) (k : A -> M B) (Q : B -> Prop) :
  quiet m -> (forall a, quietP (k a) Q) -> quietP (bind m k) Q.
Proof.
  intros Hm Hk. split.
  - apply quiet_bind; [exact Hm|]. intros a. apply Hk.
  - intros w b. unfold bind. destruct (m w) as [[a|p] w'] eqn:E; simpl; [|discriminate].
    apply Hk.
Qed.

Lemma NRP_quiet {A} (m : M A) (Q : A -> Prop) : quiet m -> NRP m Q.
Proof.
  intros Hm w. exists []. rewrite app_nil_r. split; [apply Hm|]. split; [reflexivity|].
  discriminate.
Qed.

Lemma NRP_call (c : sdk_call) : NRP (call c) (fun a => ans_err a <> None).
Proof.
  intros w. exists [(c, failed (w_server w (length (w_trace w))))]. split; [reflexivity|].
  split; [by destruct (failed _)|].
  intros Hf a [= <-]. simpl in Hf. rewrite orb_false_r in Hf.
  unfold failed in Hf. apply bool_decide_eq_true in Hf. intros He. rewrite He in Hf.
  by apply is_Some_None in Hf.
Qed.

Lemma NRP_bind {A B} (m : M A) (k : A -> M B) (P : A -> Prop) (Q : B -> Prop) :
  NRP m P -> (forall a, P a -> quietP (k a) Q) -> (forall a, NRP (k a) Q) ->
  NRP (bind m k) Q.
Proof.
  intros Hm HP Hk w. unfold bind.
  destruct (Hm w) as (t1 & Ht1 & Hs1 & Hp1).
  destruct (m w) as [[a|p] w1] eqn:E; simpl in *.
  - destruct (has_failure t1) eqn:Hf.
    + destruct (HP a (Hp1 eq_refl a eq_refl)) as [Hq Hpost].
      exists t1. rewrite Hq, Ht1. split; [reflexivity|]. split; [exact Hs1|].
      intros _ b Hb. exact (Hpost w1 b Hb).
    + destruct (Hk a w1) as (t2 & Ht2 & Hs2 & Hp2).
      exists (t1 ++ t2)%list. rewrite Ht2, Ht1, app_assoc. split; [reflexivity|].
      rewrite fail_stops_app by exact Hf. split; [exact Hs2|].
      rewrite has_failure_app, Hf. exact Hp2.
  - exists t1. split; [exact Ht1|]. split; [exact Hs1|]. intros _ b [=].
Qed.

Lemma NRP_bind_quiet {A B} (m : M A) (k : A -> M B) (Q : B -> Prop) :
  quiet m -> (forall a, NRP (k a) Q) -> NRP (bind m k) Q.
Proof.
  intros Hm Hk. apply (NRP_bind m k (fun _ => False)); [|intros a []|exact Hk].
  intros w. exists []. rewrite app_nil_r. split; [apply Hm|]. split; [reflexivity|].
  discriminate.
Qed.

Lemma NRP_bind_call (c : sdk_call) {B} (k : answer -> M B) (Q : B -> Prop) :
  (forall a, ans_err a <> None -> quietP (k a) Q) -> (forall a, NRP (k a) Q) ->
  NRP (bind (call c) k) Q.
Proof. intros H1 H2. exact (NRP_bind _ _ _ Q (NRP_call c) H1 H2). Qed.

Ltac solve_quiet :=
  repeat match goal with
  | |- quiet (bind _ _) => apply quiet_bind; [|intros ?]
  | |- quiet (ret _) => apply quiet_ret
  | |- quiet (panic _) => apply quiet_panic
  | |- quiet getD => apply quiet_getD
  | |- quiet (putD _) => apply quiet_putD
  | |- quiet SecretsManagerV2 => apply quiet_SecretsManagerV2
  | |- quiet pollBudget => apply quiet_pollBudget
  | |- quiet (index3 _) => apply quiet_index3
  | |- quiet (match ?x with _ => _ end) => destruct x
  | |- quiet (let _ := _ in _) => cbv zeta
  end.

Ltac solve_quietP :=
  repeat match goal with
  | |- quietP (bind _ _) _ => apply quietP_bind; [solve_quiet|intros ?]
  | |- quietP (ret _) _ => apply quietP_ret
  | |- quietP (panic _) _ => apply quietP_panic
  | |- quietP (match ?x with _ => _ end) _ => destruct x eqn:?
  | |- quietP (let _ := _ in _) _ => cbv zeta
  end; try exact I; try (simpl; congruence).

Ltac nrp :=
  repeat match goal with
  | |- NRP (bind (call _) _) _ =>
      apply NRP_bind_call; [intros ?a ?Ha; solve_quietP | intros ?a]
  | |- NRP (bind _ _) _ => apply NRP_bind_quiet; [solve [solve_quiet] | intros ?]
  | |- NRP (ret _) _ => apply NRP_quiet, quiet_ret
  | |- NRP (panic _) _ => apply NRP_quiet, quiet_panic
  | |- NRP (match ?x with _ => _ end) _ => destruct x; cbv beta iota zeta
  | |- NRP (let _ := _ in _) _ => cbv zeta
  end.

Definition is_inr {A B} (r : A + B) : Prop :=
  match r with inr _ => True | inl _ => False end.

Lemma fail_stops_spec (tr : list (sdk_call * bool)) :
  fail_stops tr = true -> forall i c, tr !! i = Some (c, true) -> S i = length tr.
Proof.
  induction tr as [|[c' b] tr IH]; intros H i c Hi; [discriminate|].
  destruct b.
  - destruct tr; [|discriminate]. destruct i; [reflexivity|discriminate].
  - destruct i as [|i]; [discriminate|]. simpl in *. f_equal. exact (IH H i c Hi).
Qed.

Lemma refresh_NRP (sid : string) : NRP (refresh sid) (fun r => snd r <> None).
Proof.
  unfold refresh. apply NRP_bind_call.
  - intros a Ha. solve_quietP.
  - intros a. nrp.
Qed.

Lemma wait_loop_NRP (conf : StateChangeConf) :
  NRP (Refresh conf) (fun r => snd r <> None) ->
  forall n nf last, NRP (wait_loop conf n nf last) is_inr.
Proof.
  intros Hr n. induction n as [|n IH]; intros nf last; cbn [wait_loop].
  - apply NRP_quiet, quiet_ret.
  - apply (NRP_bind _ _ _ _ Hr).
    + intros [[res st] err] Herr. simpl in Herr.
      destruct err; [|congruence]. apply quietP_ret. exact I.
    + intros [[res st] err]. cbv beta iota.
      destruct err; [apply NRP_quiet, quiet_ret|].
      destruct res; [destruct (string_in st (Target conf)); [apply NRP_quiet, quiet_ret|]|];
        [destruct (string_in st (Pending conf)); [apply IH|apply NRP_quiet, quiet_ret]|].
      destruct (Nat.ltb NotFoundChecks (S nf)); [apply NRP_quiet, quiet_ret|apply IH].
Qed.

Lemma waitFor_NRP : NRP waitForIbmSmArbitrarySecretCreate is_inr.
Proof.
  unfold waitForIbmSmArbitrarySecretCreate.
  apply NRP_bind_quiet; [apply quiet_getD|intros d].
  apply NRP_bind_quiet; [apply quiet_index3|intros [[? ?] sid]]. cbv beta iota.
  unfold WaitForState. apply NRP_bind_quiet; [apply quiet_pollBudget|intros n].
  apply wait_loop_NRP. exact (refresh_NRP sid).
Qed.

Lemma read_NRP : NRP resourceIbmSmArbitrarySecretRead (fun _ => True).
Proof. unfold resourceIbmSmArbitrarySecretRead. nrp. Qed.

Lemma update_NRP : NRP resourceIbmSmArbitrarySecretUpdate (fun _ => True).
Proof.
  unfold resourceIbmSmArbitrarySecretUpdate.
  repeat match goal with
  | |- NRP resourceIbmSmArbitrarySecretRead _ => apply read_NRP
  | _ => progress nrp
  end.
Qed.

Lemma delete_NRP : NRP resourceIbmSmArbitrarySecretDelete (fun _ => True).
Proof. unfold resourceIbmSmArbitrarySecretDelete. nrp. Qed.

Lemma create_NRP getRegion parse :
  NRP (resourceIbmSmArbitrarySecretCreate getRegion parse) (fun _ => True).
Proof.
  unfold resourceIbmSmArbitrarySecretCreate.
  repeat match goal with
  | |- NRP resourceIbmSmArbitrarySecretRead _ => apply read_NRP
  | |- NRP (bind waitForIbmSmArbitrarySecretCreate _) _ =>
      apply (NRP_bind _ _ _ _ waitFor_NRP);
      [intros [?r|?werr] ?Hr; [destruct Hr|solve_quietP] | intros [?r|?werr]]
  | _ => progress nrp
  end.
Qed.

(** The calls [m] adds to the trace: a failed one, if any, is the last. *)
Definition no_call_after_failure {A} (m : M A) : Prop :=
  forall w, exists tr,
    w_trace (snd (m w)) = (w_trace w ++ tr)%list /\
    forall i c, tr !! i = Some (c, true) -> S i = length tr.

Lemma NRP_no_call_after_failure {A} (m : M A) (Q : A -> Prop) :
  NRP m Q -> no_call_after_failure m.
Proof.
  intros H w. destruct (H w) as (tr & Htr & Hs & _). exists tr.
  split; [exact Htr|]. exact (fail_stops_spec tr Hs).
Qed.

(* ------------------------------------------------------------------ *)
(** ** C7: no SDK call after a failed one *)

(** C7 (counterexample): Create succeeds in creating the secret and the
    poll sees "active", then the GetSecretWithContext of the final Read
    fails with HTTP 404. That failed call is the last one, but Create
    returns no diagnostic: it clears the resource ID and returns nothing. *)
Lemma C7_create_ends_on_404_without_diagnostic :
  let w := sample_world (sample_d "" sample_config ∅)
             [ok_answer (secret_in "sid" "active"); ok_answer (secret_in "sid" "active");
              fail_answer 404 "Not Found"] 5 in
  map snd (trace_of (resourceIbmSmArbitrarySecretCreate sample_region sample_parse w)) =
    [false; false; true] /\
  result_of (resourceIbmSmArbitrarySecretCreate sample_region sample_parse w) = Done [] /\
  id_of (resourceIbmSmArbitrarySecretCreate sample_region sample_parse w) = "".
Proof. vm_compute. repeat split. Qed.

(** C7 (amended): in Create, Read, Update and Delete, a failed SDK call
    is never followed by another SDK call of the same operation, the
    GetSecret calls of the creation poll included: among the calls an
    operation issues, a failed one can only be the last. (What the
    operation then returns is not always a diagnostic: see the
    counterexample.) *)
Theorem lifecycle_no_call_after_failure (getRegion : ResourceData -> string)
        (parse : string -> DateTime + string) :
  no_call_after_failure (resourceIbmSmArbitrarySecretCreate getRegion parse) /\
  no_call_after_failure resourceIbmSmArbitrarySecretRead /\
  no_call_after_failure resourceIbmSmArbitrarySecretUpdate /\
  no_call_after_failure resourceIbmSmArbitrarySecretDelete.
Proof.
  split; [|split; [|split]]; eapply NRP_no_call_after_failure.
  - apply create_NRP.
  - apply read_NRP.
  - apply update_NRP.
  - apply delete_NRP.
Qed.

(* ------------------------------------------------------------------ *)
(** ** C8: a failed GetSecret in the creation poll *)

Lemma refresh_unfold (sid : string) (w : world) :
  refresh sid w =
    (let a := w_server w (length (w_trace w)) in
     (match ans_result a with
      | Some (ArbitrarySecretI stateObj) =>
          match ans_err a with
          | Some e =>
              match err_request_failure e with
              | Some 404%Z => ret (None, "", Some (instance_gone_error e (ans_response a)))
              | _ => ret (None, "", Some e)
              end
          | None =>
              match ArbitrarySecret.StateDescription stateObj with
              | None => panic "runtime error: invalid memory address or nil pointer dereference"
              | Some sd =>
                  if failStates sd then
                    ret (Some stateObj, sd, Some (instance_failed_error (ans_response a)))
                  else ret (Some stateObj, sd, None)
              end
          end
      | Some _ => panic "interface conversion: secretsmanagerv2.SecretIntf is not *secretsmanagerv2.ArbitrarySecret"
      | None => panic "interface conversion: interface is nil, not *secretsmanagerv2.ArbitrarySecret"
      end) (add_trace w [(GetSecret sid, failed a)])).
Proof. reflexivity. Qed.

(** C8: when GetSecret fails inside the creation poll and, as the SDK
    does on an error, returns no secret, the refresh closure does not
    return an error: the type assertion it makes before checking [err]
    panics on the nil interface. The sibling Read, which checks [err]
    first, returns the error diagnostic for the same answer. *)
Theorem refresh_panics_on_get_secret_error (region inst sid : string) (w : world) (e : error)
        (rr : option Response) :
  w_server w (length (w_trace w)) = {| ans_result := None; ans_response := rr; ans_err := Some e |} ->
  fst (refresh sid w) =
    Panicked "interface conversion: interface is nil, not *secretsmanagerv2.ArbitrarySecret" /\
  (w_session_err w = None -> Split (Id (w_d w)) = [region; inst; sid] ->
   (forall r, rr = Some r -> StatusCode r <> 404%Z) ->
   fst (resourceIbmSmArbitrarySecretRead w) =
     Done (FromErr (failed_msg "GetSecretWithContext" e rr))).
Proof.
  intros Ha. split.
  - rewrite refresh_unfold. cbv zeta. rewrite Ha. reflexivity.
  - intros Hs Hid Hn.
    rewrite (read_unfold w region inst sid Hs Hid). cbv zeta. rewrite Ha. cbn.
    destruct rr as [r|]; [|reflexivity].
    specialize (Hn r eq_refl). apply Z.eqb_neq in Hn. rewrite Hn. reflexivity.
Qed.

Lemma refresh_panics_on_get_secret_error_witness :
  let w := sample_world (sample_d "us-south/inst/sid" sample_config ∅)
             [fail_answer 503 "Service Unavailable"] 5 in
  fst (refresh "sid" w) =
    Panicked "interface conversion: interface is nil, not *secretsmanagerv2.ArbitrarySecret" /\
  fst (resourceIbmSmArbitrarySecretRead w) =
    Done (FromErr (failed_msg "GetSecretWithContext"
                     {| err_msg := "Service Unavailable"; err_request_failure := None |} (resp 503))).
Proof.
  intros w.
  destruct (refresh_panics_on_get_secret_error "us-south" "inst" "sid" w
              {| err_msg := "Service Unavailable"; err_request_failure := None |} (resp 503)
              eq_refl) as [H1 H2].
  split; [exact H1|]. apply H2; [reflexivity|reflexivity|].
  intros r [= <-]. discriminate.
Defined.

(** C8 (the whole operation): Create succeeds in creating the secret, the
    first poll's GetSecret fails with HTTP 503, and Create panics. *)
Lemma create_panics_on_poll_error :
  let w := sample_world (sample_d "" sample_config ∅)
             [ok_answer (secret_in "sid" "pre_activation"); fail_answer 503 "Service Unavailable"] 5 in
  result_of (resourceIbmSmArbitrarySecretCreate sample_region sample_parse w) =
    Panicked "interface conversion: interface is nil, not *secretsmanagerv2.ArbitrarySecret".
Proof. vm_compute. reflexivity. Qed.

(* ------------------------------------------------------------------ *)
(** ** C9: an invalid expiration_date *)

Definition expiration_error (msg : string) : error :=
  Errorf ("Failed to get " +++ quote +++ "expiration_date" +++ quote +++ ". Error: " +++ msg).

Lemma mapping_expiration_error (parse : string -> DateTime + string) (d : ResourceData)
      (msg : string) :
  GetOk d "expiration_date" = true ->
  parse (Get_string d "expiration_date") = inr msg ->
  resourceIbmSmArbitrarySecretMapToArbitrarySecretPrototype parse d = inr (expiration_error msg).
Proof.
  intros Hg Hp. unfold resourceIbmSmArbitrarySecretMapToArbitrarySecretPrototype.
  rewrite Hg, Hp. reflexivity.
Qed.

(** A computation that starts with an SDK call and only appends to the
    trace afterwards has that call as the first new entry of the trace. *)
Lemma NRP_bind_call_first (c : sdk_call) {B} (k : answer -> M B) (Q : B -> Prop)
      (w : world) :
  (forall a, NRP (k a) Q) ->
  exists b tr, w_trace (snd (bind (call c) k w)) = (w_trace w ++ (c, b) :: tr)%list.
Proof.
  intros Hk. unfold bind. rewrite call_eq. simpl.
  destruct (Hk (w_server w (length (w_trace w)))
              (add_trace w [(c, failed (w_server w (length (w_trace w))))]))
    as (tr & Htr & _).
  exists (failed (w_server w (length (w_trace w)))), tr.
  rewrite Htr. simpl. by rewrite <- app_assoc.
Qed.

(** With expiration_date written as "", Create's first SDK call is the
    create request, and the request carries no expiration date. *)
Lemma create_empty_expiration_first_call getRegion parse (w : world) :
  rd_attrs (w_d w) !! "expiration_date" = Some (VString "") ->
  w_session_err w = None ->
  exists p b tr,
    resourceIbmSmArbitrarySecretMapToArbitrarySecretPrototype parse (w_d w) = inl p /\
    ArbitrarySecretPrototype.ExpirationDate p = None /\
    w_trace (snd (resourceIbmSmArbitrarySecretCreate getRegion parse w)) =
      (w_trace w ++ (CreateSecretWithContext p, b) :: tr)%list.
Proof.
  intros He Hs.
  assert (Hg : GetOk (w_d w) "expiration_date" = false) by (unfold GetOk; by rewrite He).
  destruct (resourceIbmSmArbitrarySecretMapToArbitrarySecretPrototype parse (w_d w))
    as [p|e] eqn:Hm;
    [|unfold resourceIbmSmArbitrarySecretMapToArbitrarySecretPrototype in Hm;
      rewrite Hg in Hm; discriminate].
  assert (Hx : ArbitrarySecretPrototype.ExpirationDate p = None).
  { unfold resourceIbmSmArbitrarySecretMapToArbitrarySecretPrototype in Hm.
    rewrite Hg in Hm. injection Hm as <-. reflexivity. }
  unfold resourceIbmSmArbitrarySecretCreate, bind at 1, SecretsManagerV2. rewrite Hs.
  unfold bind at 1, getD. rewrite Hm. fold getD.
  match goal with
  | |- context [bind (call ?c) ?k ?w'] =>
      destruct (NRP_bind_call_first c k (fun _ => True) w') as (b & tr & Htr)
  end.
  - intros a.
    repeat match goal with
    | |- NRP resourceIbmSmArbitrarySecretRead _ => apply read_NRP
    | |- NRP (bind waitForIbmSmArbitrarySecretCreate _) _ =>
        apply (NRP_bind _ _ _ _ waitFor_NRP);
        [intros [?r|?werr] ?Hr; [destruct Hr|solve_quietP] | intros [?r|?werr]]
    | _ => progress nrp
    end.
  - exists p, b, tr. split; [reflexivity|]. split; [exact Hx|]. exact Htr.
Qed.

(** C9 (counterexample): expiration_date is written as "", which is not an
    RFC 3339 timestamp, yet [d.GetOk] reports it unset, so the mapping does
    not parse it: Create sends the create request (without an expiration
    date), the secret is created and Create returns no diagnostic. *)
Lemma C9_empty_expiration_reaches_create_call :
  let d := sample_d "" (<["expiration_date" := VString ""]> sample_config) ∅ in
  let w := sample_world d [ok_answer (secret_in "sid" "active");
                           ok_answer (secret_in "sid" "active");
                           ok_answer (secret_in "sid" "active")] 5 in
  rd_attrs d !! "expiration_date" = Some (VString "") /\
  (exists msg, sample_parse "" = inr msg) /\
  result_of (resourceIbmSmArbitrarySecretCreate sample_region sample_parse w) = Done [] /\
  (exists p tr, trace_of (resourceIbmSmArbitrarySecretCreate sample_region sample_parse w) =
                (CreateSecretWithContext p, false) :: tr /\
                ArbitrarySecretPrototype.ExpirationDate p = None) /\
  id_of (resourceIbmSmArbitrarySecretCreate sample_region sample_parse w) = "us-south/inst/sid".
Proof.
  intros d w. split; [reflexivity|]. split; [eexists; reflexivity|].
  split; [vm_compute; reflexivity|].
  split; [|vm_compute; reflexivity].
  eexists _, _. split; [vm_compute; reflexivity|reflexivity].
Qed.

(** C9 (amended): when expiration_date is a non-empty string that does not
    parse as RFC 3339, Create returns an error diagnostic (the parse error,
    or the session error if the client could not be built) and leaves the
    world as it was: no SDK call in the trace, resource data and ID
    unchanged. When expiration_date is "", [d.GetOk] reports it unset: it
    is not parsed, whatever the parser says of "", and Create's first SDK
    call is CreateSecretWithContext, with no expiration date. *)
Theorem create_invalid_expiration_no_call (getRegion : ResourceData -> string)
        (parse : string -> DateTime + string) (w : world) :
  (forall s msg,
     rd_attrs (w_d w) !! "expiration_date" = Some (VString s) -> s <> "" ->
     parse s = inr msg ->
     exists ds,
       resourceIbmSmArbitrarySecretCreate getRegion parse w = (Done ds, w) /\ ds <> [] /\
       (w_session_err w = None -> ds = FromErr (expiration_error msg))) /\
  (rd_attrs (w_d w) !! "expiration_date" = Some (VString "") ->
   w_session_err w = None ->
   exists p b tr,
     ArbitrarySecretPrototype.ExpirationDate p = None /\
     w_trace (snd (resourceIbmSmArbitrarySecretCreate getRegion parse w)) =
       (w_trace w ++ (CreateSecretWithContext p, b) :: tr)%list).
Proof.
  split.
  - intros s msg He Hne Hp.
    assert (Hg : GetOk (w_d w) "expiration_date" = true).
    { unfold GetOk. rewrite He. simpl. destruct (String.eqb_spec s ""); [congruence|reflexivity]. }
    assert (Hp' : parse (Get_string (w_d w) "expiration_date") = inr msg).
    { unfold Get_string. by rewrite He. }
    unfold resourceIbmSmArbitrarySecretCreate, bind at 1, SecretsManagerV2.
    destruct (w_session_err w) as [e|].
    + exists (FromErr e). split; [reflexivity|]. split; [discriminate|]. discriminate.
    + exists (FromErr (expiration_error msg)).
      unfold bind at 1, getD. rewrite (mapping_expiration_error parse (w_d w) msg Hg Hp').
      split; [reflexivity|]. split; [discriminate|reflexivity].
  - intros He Hs.
    destruct (create_empty_expiration_first_call getRegion parse w He Hs)
      as (p & b & tr & _ & Hx & Htr).
    exists p, b, tr. split; [exact Hx|exact Htr].
Qed.

Lemma create_invalid_expiration_no_call_witness :
  let d1 := sample_d "" (<["expiration_date" := VString "tomorrow"]> sample_config) ∅ in
  let w1 := sample_world d1 [] 5 in
  let d2 := sample_d "" (<["expiration_date" := VString ""]> sample_config) ∅ in
  let w2 := sample_world d2 [ok_answer (secret_in "sid" "active")] 5 in
  (exists msg, sample_parse "tomorrow" = inr msg /\
   exists ds, resourceIbmSmArbitrarySecretCreate sample_region sample_parse w1 = (Done ds, w1) /\
              ds = FromErr (expiration_error msg)) /\
  (exists p b tr,
     ArbitrarySecretPrototype.ExpirationDate p = None /\
     w_trace (snd (resourceIbmSmArbitrarySecretCreate sample_region sample_parse w2)) =
       (w_trace w2 ++ (CreateSecretWithContext p, b) :: tr)%list).
Proof.
  intros d1 w1 d2 w2. split.
  - eexists. split; [reflexivity|].
    destruct (proj1 (create_invalid_expiration_no_call sample_region sample_parse w1)
                "tomorrow" _ eq_refl ltac:(discriminate) eq_refl)
      as (ds & Hrun & _ & Hds).
    exists ds. split; [exact Hrun|]. exact (Hds eq_refl).
  - exact (proj2 (create_invalid_expiration_no_call sample_region sample_parse w2)
             eq_refl eq_refl).
Defined.

(* ------------------------------------------------------------------ *)
(** ** C10: the metadata patch of Update *)

(** Read issues at most one SDK call, a GetSecretWithContext. *)
Lemma read_calls (w : world) (region inst sid : string) (rest : list string) :
  w_session_err w = None ->
  Split (Id (w_d w)) = region :: inst :: sid :: rest ->
  exists tr, w_trace (snd (resourceIbmSmArbitrarySecretRead w)) = (w_trace w ++ tr)%list /\
    (tr = [] \/ exists b, tr = [(GetSecretWithContext sid, b)]).
Proof.
  intros Hs Hid. destruct rest as [|x rest].
  - rewrite (read_unfold w region inst sid Hs Hid). cbv zeta.
    exists [(GetSecretWithContext sid, failed (w_server w (length (w_trace w))))].
    split; [|right; eexists; reflexivity].
    set (a := w_server w (length (w_trace w))).
    destruct (ans_err a) as [e|];
      [destruct (ans_response a) as [r|]; [destruct (Z.eqb (StatusCode r) 404)|]
      |destruct (ans_result a) as [[s| |]|]]; reflexivity.
  - exists []. split; [|left; reflexivity]. rewrite app_nil_r.
    unfold resourceIbmSmArbitrarySecretRead, bind at 1, SecretsManagerV2. rewrite Hs.
    unfold bind at 1, getD. rewrite Hid. reflexivity.
Qed.

(** C10: Update builds a metadata patch holding exactly the fields among
    name, description, labels and custom_metadata that [d.HasChange]
    reports, and no expiration date or TTL (the patch type has no payload
    field at all). If none of the four changed, Update issues no
    UpdateSecretMetadataWithContext call: at most the GetSecretWithContext
    of the Read it ends with. If one changed, its first call is
    UpdateSecretMetadataWithContext with that patch, followed at most by
    that GetSecretWithContext. The payload attribute is Required and
    ForceNew in the schema, so a changed payload replaces the resource. *)
Theorem update_patch_only_on_change (w : world) (region inst sid : string)
        (rest : list string) :
  w_session_err w = None ->
  Split (Id (w_d w)) = region :: inst :: sid :: rest ->
  let d := w_d w in
  let p := fst (update_patch d) in
  (is_Some (SecretMetadataPatch.Name p) <-> HasChange d "name" = true) /\
  (is_Some (SecretMetadataPatch.Description p) <-> HasChange d "description" = true) /\
  (is_Some (SecretMetadataPatch.Labels p) <-> HasChange d "labels" = true) /\
  (is_Some (SecretMetadataPatch.CustomMetadata p) <-> HasChange d "custom_metadata" = true) /\
  SecretMetadataPatch.ExpirationDate p = None /\ SecretMetadataPatch.TTL p = None /\
  (snd (update_patch d) = true <->
     HasChange d "name" = true \/ HasChange d "description" = true \/
     HasChange d "labels" = true \/ HasChange d "custom_metadata" = true) /\
  (snd (update_patch d) = false ->
   exists tr, w_trace (snd (resourceIbmSmArbitrarySecretUpdate w)) = (w_trace w ++ tr)%list /\
     (tr = [] \/ exists b, tr = [(GetSecretWithContext sid, b)])) /\
  (snd (update_patch d) = true ->
   exists b tr,
     w_trace (snd (resourceIbmSmArbitrarySecretUpdate w)) =
       (w_trace w ++ (UpdateSecretMetadataWithContext sid p, b) :: tr)%list /\
     (tr = [] \/ exists b', tr = [(GetSecretWithContext sid, b')])) /\
  (exists s, schema_lookup "payload" ResourceIbmSmArbitrarySecret_schema = Some s /\
             Required s = true /\ ForceNew s = true).
Proof.
  intros Hs Hid d p.
  assert (Hsome : forall (A : Type) (b : bool) (x : A),
             is_Some (if b then Some x else None) <-> b = true).
  { intros A b x. destruct b; split; intros H; try reflexivity; try discriminate.
    - by eexists.
    - by apply is_Some_None in H. }
  split; [apply Hsome|]. split; [apply Hsome|]. split; [apply Hsome|].
  split; [apply Hsome|]. split; [reflexivity|]. split; [reflexivity|].
  split; [|split; [|split]].
  - unfold update_patch. simpl.
    destruct (HasChange d "name"), (HasChange d "description"),
             (HasChange d "labels"), (HasChange d "custom_metadata");
      simpl; intuition congruence.
  - intros Hch. rewrite (update_unfold w region inst sid rest Hs Hid). fold d. rewrite Hch.
    exact (read_calls w region inst sid rest Hs Hid).
  - intros Hch. rewrite (update_unfold w region inst sid rest Hs Hid). fold d. rewrite Hch.
    unfold bind at 1. rewrite call_eq. fold p.
    set (a := w_server w (length (w_trace w))).
    exists (failed a).
    destruct (ans_err a) as [e|].
    + exists []. split; [reflexivity|left; reflexivity].
    + destruct (read_calls (add_trace w [(UpdateSecretMetadataWithContext sid p, failed a)])
                  region inst sid rest Hs Hid) as (tr & Htr & Hor).
      exists tr. split; [|exact Hor]. rewrite Htr. simpl. by rewrite <- app_assoc.
  - eexists. split; [reflexivity|]. split; reflexivity.
Qed.

Lemma update_patch_only_on_change_witness :
  let w := sample_world (sample_d "us-south/inst/sid" sample_config
                           (<["name" := VString "old-name"]> sample_config))
             [ok_answer (secret_in "sid" "active"); ok_answer (secret_in "sid" "active")] 0 in
  snd (update_patch (w_d w)) = true /\
  exists b tr,
    w_trace (snd (resourceIbmSmArbitrarySecretUpdate w)) =
      (w_trace w ++ (UpdateSecretMetadataWithContext "sid" (fst (update_patch (w_d w))), b) :: tr)%list.
Proof.
  intros w.
  destruct (update_patch_only_on_change w "us-south" "inst" "sid" [] eq_refl eq_refl)
    as (_ & _ & _ & _ & _ & _ & Hiff & _ & Htrue & _).
  assert (Hc : snd (update_patch (w_d w)) = true) by (vm_compute; reflexivity).
  split; [exact Hc|].
  destruct (Htrue Hc) as (b & tr & Htr & _). exists b, tr. exact Htr.
Defined.

(* ================================================================== *)
(** * Further properties of the resource and the data source *)

(** ** Parsing the resource ID *)

Fixpoint count_slash (s : string) : nat :=
  match s with
  | EmptyString => 0
  | String c rest => (if Ascii.eqb c "/"%char then 1 else 0) + count_slash rest
  end.

Lemma split_slash_acc_length (s cur : string) :
  length (split_slash_acc s cur) = S (count_slash s).
Proof.
  revert cur. induction s as [|c s IH]; intros cur; [reflexivity|].
  simpl. destruct (Ascii.eqb c "/"%char); simpl; rewrite IH; reflexivity.
Qed.

Lemma count_slash_app (a b : string) : count_slash (a +++ b) = count_slash a + count_slash b.
Proof.
  induction a as [|c a IH]; [reflexivity|].
  change (count_slash (String c (a +++ b)) = count_slash (String c a) + count_slash b).
  simpl. rewrite IH. lia.
Qed.

Lemma no_slash_count (s : string) : no_slash s = false -> 1 <= count_slash s.
Proof.
  induction s as [|c s IH]; [discriminate|]. unfold no_slash; simpl. intros H.
  destruct (Ascii.eqb c "/"%char); simpl in *; [lia|]. specialize (IH H). lia.
Qed.

Lemma Split_length_id (r i s : string) :
  length (Split (r +++ "/" +++ i +++ "/" +++ s)) =
    3 + count_slash r + count_slash i + count_slash s.
Proof.
  unfold Split. rewrite split_slash_acc_length, !count_slash_app. simpl. lia.
Qed.

Definition wrong_format_diag : list Diagnostic :=
  [ {| diag_summary := "Wrong format of resource ID. To import a secret use the format `<region>/<instance_id>/<secret_id>`" |} ].

Lemma read_wrong_format_unfold (w : world) :
  w_session_err w = None -> length (Split (Id (w_d w))) <> 3 ->
  resourceIbmSmArbitrarySecretRead w = (Done wrong_format_diag, w).
Proof.
  intros Hs Hl. unfold resourceIbmSmArbitrarySecretRead, bind at 1, SecretsManagerV2.
  rewrite Hs. unfold bind at 1, getD.
  destruct (Split (Id (w_d w))) as [|a [|b [|c [|x l]]]]; try reflexivity.
  simpl in Hl. lia.
Qed.

(** Read rejects any resource ID that does not split into exactly three
    parts at "/": it returns the single "Wrong format of resource ID"
    diagnostic, issues no SDK call and leaves the resource data, ID
    included, unchanged. *)
Theorem read_rejects_malformed_id (w : world) :
  w_session_err w = None -> length (Split (Id (w_d w))) <> 3 ->
  resourceIbmSmArbitrarySecretRead w = (Done wrong_format_diag, w).
Proof. exact (read_wrong_format_unfold w). Qed.

Lemma read_rejects_malformed_id_witness :
  let w := sample_world (sample_d "us-south/inst" sample_config ∅) [] 0 in
  resourceIbmSmArbitrarySecretRead w = (Done wrong_format_diag, w).
Proof. intros w. apply read_rejects_malformed_id; [reflexivity|simpl; lia]. Defined.

(** The ID Create writes is region/instance_id/secret_id. Read splits it
    back into those three parts when none contains "/"; when one does,
    the ID has more than three parts and Read rejects it with the
    "Wrong format" diagnostic and no SDK call. *)
Theorem created_id_round_trip (w : world) (region inst sid : string) :
  w_session_err w = None ->
  Id (w_d w) = region +++ "/" +++ inst +++ "/" +++ sid ->
  (no_slash region && no_slash inst && no_slash sid = true ->
   Split (Id (w_d w)) = [region; inst; sid]) /\
  (no_slash region && no_slash inst && no_slash sid = false ->
   3 < length (Split (Id (w_d w))) /\
   resourceIbmSmArbitrarySecretRead w = (Done wrong_format_diag, w)).
Proof.
  intros Hs Hid. rewrite Hid. split.
  - intros H. apply andb_prop in H as [H Hc]. apply andb_prop in H as [Ha Hb].
    by apply Split_id.
  - intros H. assert (Hl : 3 < length (Split (region +++ "/" +++ inst +++ "/" +++ sid))).
    { rewrite Split_length_id.
      destruct (no_slash region) eqn:Ha; [destruct (no_slash inst) eqn:Hb|];
        [destruct (no_slash sid) eqn:Hc|..]; simpl in H; try discriminate;
        repeat match goal with Hx : no_slash _ = false |- _ => apply no_slash_count in Hx end;
        lia. }
    split; [exact Hl|]. apply read_wrong_format_unfold; [exact Hs|]. rewrite Hid. lia.
Qed.

Lemma created_id_round_trip_witness :
  let w := sample_world (sample_d "us-south/a/b/sid" sample_config ∅) [] 0 in
  resourceIbmSmArbitrarySecretRead w = (Done wrong_format_diag, w).
Proof.
  intros w. destruct (created_id_round_trip w "us-south" "a/b" "sid" eq_refl eq_refl) as [_ H].
  apply H. reflexivity.
Defined.

(** Update and Delete index the split ID without checking its length:
    with fewer than three parts both panic (index out of range) before
    any SDK call and without touching the resource data, where Read
    returns the "Wrong format" diagnostic for the same ID. *)
Theorem short_id_update_delete_panic (w : world) :
  w_session_err w = None -> length (Split (Id (w_d w))) < 3 ->
  (exists msg, resourceIbmSmArbitrarySecretUpdate w = (Panicked msg, w)) /\
  (exists msg, resourceIbmSmArbitrarySecretDelete w = (Panicked msg, w)) /\
  resourceIbmSmArbitrarySecretRead w = (Done wrong_format_diag, w).
Proof.
  intros Hs Hl. split; [|split].
  - unfold resourceIbmSmArbitrarySecretUpdate, bind at 1, SecretsManagerV2. rewrite Hs.
    unfold bind at 1, getD, bind at 1, index3.
    destruct (Split (Id (w_d w))) as [|a [|b [|c l]]]; simpl in Hl; try lia; eexists; reflexivity.
  - unfold resourceIbmSmArbitrarySecretDelete, bind at 1, SecretsManagerV2. rewrite Hs.
    unfold bind at 1, getD, bind at 1, index3.
    destruct (Split (Id (w_d w))) as [|a [|b [|c l]]]; simpl in Hl; try lia; eexists; reflexivity.
  - apply read_wrong_format_unfold; [exact Hs|lia].
Qed.

Lemma short_id_update_delete_panic_witness :
  let w := sample_world (sample_d "sid" sample_config ∅) [] 0 in
  resourceIbmSmArbitrarySecretDelete w =
    (Panicked "runtime error: index out of range [1] with length 1", w).
Proof.
  intros w. destruct (short_id_update_delete_panic w eq_refl ltac:(simpl; lia))
    as (_ & [msg Hdel] & _).
  rewrite Hdel. f_equal. f_equal. vm_compute in Hdel. congruence.
Defined.

(** With more than three parts, Delete takes the third part as the
    secret ID and issues DeleteSecretWithContext for it (clearing the ID
    when the call succeeds), while Read rejects the same ID as malformed
    without any call. *)
Theorem long_id_delete_uses_third_part (w : world) (region inst sid x : string)
        (rest : list string) :
  w_session_err w = None ->
  Split (Id (w_d w)) = region :: inst :: sid :: x :: rest ->
  resourceIbmSmArbitrarySecretRead w = (Done wrong_format_diag, w) /\
  w_trace (snd (resourceIbmSmArbitrarySecretDelete w)) =
    (w_trace w ++ [(DeleteSecretWithContext sid, failed (w_server w (length (w_trace w))))])%list /\
  (ans_err (w_server w (length (w_trace w))) = None ->
   resourceIbmSmArbitrarySecretDelete w =
     (Done [], add_trace (with_d w (SetId "" (w_d w)))
                 [(DeleteSecretWithContext sid, false)])).
Proof.
  intros Hs Hid. split; [|split].
  - apply read_wrong_format_unfold; [exact Hs|]. rewrite Hid. simpl. lia.
  - rewrite (delete_unfold w region inst sid (x :: rest) Hs Hid). cbv zeta.
    destruct (ans_err _); reflexivity.
  - intros He. rewrite (delete_unfold w region inst sid (x :: rest) Hs Hid). cbv zeta.
    unfold failed. rewrite He. reflexivity.
Qed.

Lemma long_id_delete_uses_third_part_witness :
  let w := sample_world (sample_d "us-south/a/b/sid" sample_config ∅) [] 0 in
  trace_of (resourceIbmSmArbitrarySecretDelete w) = [(DeleteSecretWithContext "b", true)].
Proof.
  intros w.
  destruct (long_id_delete_uses_third_part w "us-south" "a" "b" "sid" [] eq_refl eq_refl)
    as (_ & Htr & _).
  unfold trace_of. rewrite Htr. reflexivity.
Defined.

(** When the client session cannot be built, each of Create, Read,
    Update and Delete returns that error as its only diagnostic, before
    any SDK call and without touching the resource data. *)
Theorem session_error_no_call (getRegion : ResourceData -> string)
        (parse : string -> DateTime + string) (w : world) (e : error) :
  w_session_err w = Some e ->
  resourceIbmSmArbitrarySecretCreate getRegion parse w = (Done (FromErr e), w) /\
  resourceIbmSmArbitrarySecretRead w = (Done (FromErr e), w) /\
  resourceIbmSmArbitrarySecretUpdate w = (Done (FromErr e), w) /\
  resourceIbmSmArbitrarySecretDelete w = (Done (FromErr e), w).
Proof.
  intros Hs.
  unfold resourceIbmSmArbitrarySecretCreate, resourceIbmSmArbitrarySecretRead,
         resourceIbmSmArbitrarySecretUpdate, resourceIbmSmArbitrarySecretDelete,
         bind, SecretsManagerV2.
  rewrite Hs. repeat split.
Qed.

Lemma session_error_no_call_witness :
  let w := {| w_d := sample_d "us-south/inst/sid" sample_config ∅;
              w_session_err := Some (Errorf "no IAM token");
              w_server := fun _ => fail_answer 503 "Service Unavailable";
              w_trace := []; w_polls := 0 |} in
  resourceIbmSmArbitrarySecretDelete w = (Done (FromErr (Errorf "no IAM token")), w).
Proof.
  intros w. destruct (session_error_no_call sample_region sample_parse w _ eq_refl)
    as (_ & _ & _ & H). exact H.
Defined.

(** ** Read after a successful GetSecretWithContext *)

Lemma lookup_set_all (kvs : list (string * value)) (d : ResourceData) (k : string) :
  rd_attrs (set_all kvs d) !! k =
    fold_left (fun acc kv => if String.eqb kv.1 k then Some kv.2 else acc) kvs (rd_attrs d !! k).
Proof.
  revert d. induction kvs as [|[k' v] kvs IH]; intros d; [reflexivity|].
  unfold set_all in *. simpl. rewrite IH. f_equal. unfold Set_. simpl.
  destruct (String.eqb k' k) eqn:E.
  - apply String.eqb_eq in E. subst. by rewrite lookup_insert_eq.
  - apply String.eqb_neq in E. by rewrite lookup_insert_ne.
Qed.

Lemma rd_id_set_all (kvs : list (string * value)) (d : ResourceData) :
  rd_id (set_all kvs d) = rd_id d.
Proof.
  revert d. induction kvs as [|kv kvs IH]; intros d; [reflexivity|].
  unfold set_all in *. simpl. rewrite IH. reflexivity.
Qed.

(** When GetSecretWithContext returns an arbitrary secret, Read returns
    no diagnostic, keeps the resource ID, and stores the three parts of
    the ID in secret_id, instance_id and region, and the secret's
    state_description and payload in the attributes of those names. *)
Theorem read_success_sets_attributes (w : world) (region inst sid : string)
        (s : ArbitrarySecret.t) (rr : option Response) :
  w_session_err w = None ->
  Split (Id (w_d w)) = [region; inst; sid] ->
  w_server w (length (w_trace w)) =
    {| ans_result := Some (ArbitrarySecretI s); ans_response := rr; ans_err := None |} ->
  let r := resourceIbmSmArbitrarySecretRead w in
  fst r = Done [] /\
  w_trace (snd r) = (w_trace w ++ [(GetSecretWithContext sid, false)])%list /\
  rd_id (w_d (snd r)) = rd_id (w_d w) /\
  rd_attrs (w_d (snd r)) !! "secret_id" = Some (VString sid) /\
  rd_attrs (w_d (snd r)) !! "instance_id" = Some (VString inst) /\
  rd_attrs (w_d (snd r)) !! "region" = Some (VString region) /\
  rd_attrs (w_d (snd r)) !! "state_description" = Some (vstr (ArbitrarySecret.StateDescription s)) /\
  rd_attrs (w_d (snd r)) !! "payload" = Some (vstr (ArbitrarySecret.Payload s)).
Proof.
  intros Hs Hid Ha r. unfold r. rewrite (read_unfold w region inst sid Hs Hid). cbv zeta.
  rewrite Ha. cbn [ans_err ans_result fst snd].
  unfold bind, putD, ret. cbn [fst snd w_d w_trace].
  rewrite !lookup_set_all, rd_id_set_all. unfold read_attrs.
  destruct (ArbitrarySecret.CustomMetadata s), (ArbitrarySecret.Labels s);
    repeat split; reflexivity.
Qed.

Lemma read_success_sets_attributes_witness :
  let w := sample_world (sample_d "us-south/inst/sid" sample_config ∅)
             [ok_answer (secret_in "sid" "active")] 0 in
  w_trace (snd (resourceIbmSmArbitrarySecretRead w)) = [(GetSecretWithContext "sid", false)] /\
  rd_attrs (w_d (snd (resourceIbmSmArbitrarySecretRead w))) !! "payload" = Some (VString "s3cr3t").
Proof.
  intros w.
  destruct (read_success_sets_attributes w "us-south" "inst" "sid" (secret_in "sid" "active")
              (resp 200) eq_refl eq_refl eq_refl) as (_ & Htr & _ & _ & _ & _ & _ & Hp).
  split; [exact Htr|exact Hp].
Defined.

(** ** The creation wait *)

Lemma refresh_shape (sid : string) (w : world) :
  (w_d (snd (refresh sid w)) = w_d w /\ w_session_err (snd (refresh sid w)) = w_session_err w) /\
  w_trace (snd (refresh sid w)) =
    (w_trace w ++ [(GetSecret sid, failed (w_server w (length (w_trace w))))])%list /\
  (forall res st, fst (refresh sid w) = Done (res, st, None) -> res <> None).
Proof.
  rewrite refresh_unfold. cbv zeta.
  set (a := w_server w (length (w_trace w))).
  repeat match goal with |- context [match ?x with _ => _ end] => destruct x end;
    cbn; (split; [split; reflexivity|]; split; [reflexivity|]);
    intros ? ? H; inversion H; congruence.
Qed.

Lemma wait_loop_shape (d : ResourceData) (sid : string) (n nf : nat) (last : string)
      (w : world) :
  (w_d (snd (wait_loop (createStateConf d sid) n nf last w)) = w_d w /\
   w_session_err (snd (wait_loop (createStateConf d sid) n nf last w)) = w_session_err w) /\
  (exists tr, w_trace (snd (wait_loop (createStateConf d sid) n nf last w)) =
                (w_trace w ++ tr)%list /\
              Forall (fun c => c.1 = GetSecret sid) tr /\ length tr <= n) /\
  fst (wait_loop (createStateConf d sid) n nf last w) <> Done (inr NotFoundError).
Proof.
  revert nf last w. induction n as [|n IH]; intros nf last w.
  - split; [split; reflexivity|]. split; [|discriminate].
    exists []. rewrite app_nil_r. repeat constructor.
  - cbn [wait_loop]. unfold bind.
    change (Refresh (createStateConf d sid)) with (refresh sid).
    destruct (refresh_shape sid w) as ((Hd & Hse) & Ht & Hn).
    destruct (refresh sid w) as [[[[res st] err]|p] w1]; cbn [fst snd] in *.
    + assert (Hone : forall A (x : A),
                 (w_d (snd (ret x w1)) = w_d w /\
                  w_session_err (snd (ret x w1)) = w_session_err w) /\
                 (exists tr, w_trace (snd (ret x w1)) = (w_trace w ++ tr)%list /\
                             Forall (fun c => c.1 = GetSecret sid) tr /\ length tr <= S n)).
      { intros A x. split; [split; [exact Hd|exact Hse]|]. eexists. split; [exact Ht|].
        split; [repeat constructor|simpl; lia]. }
      destruct err as [e|].
      * destruct (Hone _ (inr (A := option ArbitrarySecret.t) (RefreshError e))) as [H1 H2]. split; [exact H1|].
        split; [exact H2|]. discriminate.
      * destruct res as [o|]; [|by destruct (Hn None st eq_refl)].
        cbn [Target Pending createStateConf].
        destruct (string_in st ["active"]);
          [destruct (Hone _ (inl (B := wait_error) (Some o))) as [H1 H2]; split; [exact H1|]; split; [exact H2|discriminate]|].
        destruct (string_in st ["pre_activation"]);
          [|destruct (Hone _ (inr (A := option ArbitrarySecret.t) (UnexpectedStateError st))) as [H1 H2];
            split; [exact H1|]; split; [exact H2|discriminate]].
        destruct (IH 0 st w1) as ((H1 & H1') & (tr & Htr & Hf & Hl) & H3).
        split; [split; [by rewrite H1|by rewrite H1']|]. split; [|exact H3].
        exists ((GetSecret sid, failed (w_server w (length (w_trace w)))) :: tr).
        rewrite Htr, Ht, <- app_assoc. split; [reflexivity|].
        split; [by constructor|simpl; lia].
    + split; [split; [exact Hd|exact Hse]|]. split; [|discriminate]. eexists. split; [exact Ht|].
      split; [repeat constructor|simpl; lia].
Qed.

(** The creation wait keeps the resource data as it is, issues only
    GetSecret calls, all for the third part of the resource ID, at most
    one per poll that fits in the create timeout, and never ends with
    the "couldn't find resource" error: a refresh without error always
    carries a secret. *)
Theorem creation_wait_calls (w : world) (region inst sid : string) (rest : list string) :
  Split (Id (w_d w)) = region :: inst :: sid :: rest ->
  w_d (snd (waitForIbmSmArbitrarySecretCreate w)) = w_d w /\
  (exists tr, w_trace (snd (waitForIbmSmArbitrarySecretCreate w)) = (w_trace w ++ tr)%list /\
              Forall (fun c => c.1 = GetSecret sid) tr /\ length tr <= w_polls w) /\
  fst (waitForIbmSmArbitrarySecretCreate w) <> Done (inr NotFoundError).
Proof.
  intros Hid. rewrite (wait_entry w region inst sid rest Hid).
  destruct (wait_loop_shape (w_d w) sid (w_polls w) 0 "" w) as ((H1 & _) & H2 & H3).
  split; [exact H1|]. split; [exact H2|exact H3].
Qed.

Lemma creation_wait_calls_witness :
  let w := sample_world (sample_d "us-south/inst/sid" sample_config ∅)
             [ok_answer (secret_in "sid" "pre_activation");
              ok_answer (secret_in "sid" "pre_activation")] 2 in
  fst (waitForIbmSmArbitrarySecretCreate w) <> Done (inr NotFoundError) /\
  trace_of (waitForIbmSmArbitrarySecretCreate w) = [(GetSecret "sid", false); (GetSecret "sid", false)].
Proof.
  intros w. destruct (creation_wait_calls w "us-south" "inst" "sid" [] eq_refl) as (_ & _ & H).
  split; [exact H|]. vm_compute. reflexivity.
Defined.

(** ** Create, from the created secret to the end *)

Lemma read_nonempty_keeps_d (w : world) (ds : list Diagnostic) :
  fst (resourceIbmSmArbitrarySecretRead w) = Done ds -> ds <> [] ->
  w_d (snd (resourceIbmSmArbitrarySecretRead w)) = w_d w.
Proof.
  unfold resourceIbmSmArbitrarySecretRead, bind, SecretsManagerV2, getD.
  destruct (w_session_err w); [intros; reflexivity|].
  destruct (Split (Id (w_d w))) as [|a [|b [|c [|x l]]]]; try (intros; reflexivity).
  unfold call. cbv zeta.
  set (an := w_server w (length (w_trace w))).
  repeat match goal with |- context [match ?x with _ => _ end] => destruct x end;
    cbn; intros H Hne; try reflexivity; inversion H; subst; congruence.
Qed.

(** Once CreateSecretWithContext has created a secret with ID [sid] (the
    region, instance_id and [sid] free of "/"), the calls Create issues
    are that CreateSecretWithContext, then GetSecret calls for [sid], at
    most one per poll that fits in the create timeout, then at most one
    GetSecretWithContext for [sid] (the final Read). *)
Theorem create_call_sequence (getRegion : ResourceData -> string)
        (parse : string -> DateTime + string) (w : world) proto
        (secret : ArbitrarySecret.t) (sid : string) (rc : option Response) :
  w_session_err w = None ->
  resourceIbmSmArbitrarySecretMapToArbitrarySecretPrototype parse (w_d w) = inl proto ->
  w_server w (length (w_trace w)) =
    {| ans_result := Some (ArbitrarySecretI secret); ans_response := rc; ans_err := None |} ->
  ArbitrarySecret.ID secret = Some sid ->
  no_slash (getRegion (w_d w)) = true -> no_slash (Get_string (w_d w) "instance_id") = true ->
  no_slash sid = true ->
  exists tr1 tr2,
    w_trace (snd (resourceIbmSmArbitrarySecretCreate getRegion parse w)) =
      (w_trace w ++ (CreateSecretWithContext proto, false) :: tr1 ++ tr2)%list /\
    Forall (fun c => c.1 = GetSecret sid) tr1 /\ length tr1 <= w_polls w /\
    (tr2 = [] \/ exists b, tr2 = [(GetSecretWithContext sid, b)]).
Proof.
  intros Hs Hm Hc Hid Hr Hi Hsid.
  rewrite (create_unfold getRegion parse w proto secret sid rc Hs Hm Hc Hid).
  set (w1 := add_trace (with_d w (created_d getRegion (w_d w) sid))
                       [(CreateSecretWithContext proto, false)]).
  assert (Hsp : Split (Id (w_d w1)) = [getRegion (w_d w); Get_string (w_d w) "instance_id"; sid])
    by exact (Split_created_d getRegion (w_d w) sid Hr Hi Hsid).
  unfold bind at 1. rewrite (wait_entry w1 _ _ _ [] Hsp).
  destruct (wait_loop_shape (w_d w1) sid (w_polls w1) 0 "" w1)
    as ((Hd & Hse) & (tr1 & Htr1 & Hf & Hl) & _).
  destruct (wait_loop (createStateConf (w_d w1) sid) (w_polls w1) 0 "" w1)
    as [[r|p] w2]; cbn [fst snd] in *.
  - destruct r as [x|werr].
    + assert (Hsp2 : Split (Id (w_d w2)) = [getRegion (w_d w); Get_string (w_d w) "instance_id"; sid])
        by (rewrite Hd; exact Hsp).
      destruct (read_calls w2 _ _ _ [] (eq_trans Hse Hs) Hsp2) as (tr2 & Htr2 & Hor).
      exists tr1, tr2. cbn [create_after_wait]. rewrite Htr2, Htr1.
      split; [|split; [exact Hf|split; [exact Hl|exact Hor]]].
      unfold w1. cbn. by rewrite <- !app_assoc.
    + exists tr1, []. cbn. rewrite Htr1. split; [|split; [exact Hf|split; [exact Hl|left; reflexivity]]].
      unfold w1. cbn. by rewrite <- !app_assoc, app_nil_r.
  - exists tr1, []. cbn. rewrite Htr1. split; [|split; [exact Hf|split; [exact Hl|left; reflexivity]]].
    unfold w1. cbn. by rewrite <- !app_assoc, app_nil_r.
Qed.

Lemma create_call_sequence_witness :
  let w := sample_world (sample_d "" sample_config ∅)
             [ok_answer (secret_in "sid" "pre_activation"); ok_answer (secret_in "sid" "active");
              ok_answer (secret_in "sid" "active")] 5 in
  exists proto tr1 tr2,
    trace_of (resourceIbmSmArbitrarySecretCreate sample_region sample_parse w) =
      ((CreateSecretWithContext proto, false) :: tr1 ++ tr2)%list /\
    Forall (fun c => c.1 = GetSecret "sid") tr1.
Proof.
  intros w.
  assert (Hm : resourceIbmSmArbitrarySecretMapToArbitrarySecretPrototype sample_parse (w_d w) =
               inl (match resourceIbmSmArbitrarySecretMapToArbitrarySecretPrototype sample_parse (w_d w)
                    with inl p => p | inr _ => ArbitrarySecretPrototype.empty end))
    by (vm_compute; reflexivity).
  destruct (create_call_sequence sample_region sample_parse w _ (secret_in "sid" "pre_activation")
              "sid" (resp 200) eq_refl Hm eq_refl eq_refl eq_refl eq_refl eq_refl)
    as (tr1 & tr2 & Htr & Hf & _).
  eexists; exists tr1, tr2. split; [exact Htr|exact Hf].
Defined.

(** Once CreateSecretWithContext has created a secret with ID [sid],
    every diagnostic Create returns (a failed or timed-out wait, or a
    failing final Read) leaves the resource ID set to
    region/instance_id/[sid] and secret_id set to [sid]: the created
    secret stays recorded in the state. *)
Theorem create_error_keeps_id (getRegion : ResourceData -> string)
        (parse : string -> DateTime + string) (w : world) proto
        (secret : ArbitrarySecret.t) (sid : string) (rc : option Response) :
  w_session_err w = None ->
  resourceIbmSmArbitrarySecretMapToArbitrarySecretPrototype parse (w_d w) = inl proto ->
  w_server w (length (w_trace w)) =
    {| ans_result := Some (ArbitrarySecretI secret); ans_response := rc; ans_err := None |} ->
  ArbitrarySecret.ID secret = Some sid ->
  forall ds, fst (resourceIbmSmArbitrarySecretCreate getRegion parse w) = Done ds -> ds <> [] ->
  rd_id (w_d (snd (resourceIbmSmArbitrarySecretCreate getRegion parse w))) =
    getRegion (w_d w) +++ "/" +++ Get_string (w_d w) "instance_id" +++ "/" +++ sid /\
  rd_attrs (w_d (snd (resourceIbmSmArbitrarySecretCreate getRegion parse w))) !! "secret_id" =
    Some (VString sid).
Proof.
  intros Hs Hm Hc Hid ds.
  rewrite (create_unfold getRegion parse w proto secret sid rc Hs Hm Hc Hid).
  set (w1 := add_trace (with_d w (created_d getRegion (w_d w) sid))
                       [(CreateSecretWithContext proto, false)]).
  assert (Hgoal : rd_id (w_d w1) =
                    getRegion (w_d w) +++ "/" +++ Get_string (w_d w) "instance_id" +++ "/" +++ sid /\
                  rd_attrs (w_d w1) !! "secret_id" = Some (VString sid)).
  { split; [reflexivity|]. unfold w1, created_d, Set_. cbn. by rewrite lookup_insert_eq. }
  assert (Hlen : 3 <= length (Split (Id (w_d w1)))).
  { change (Id (w_d w1)) with
      (getRegion (w_d w) +++ "/" +++ Get_string (w_d w) "instance_id" +++ "/" +++ sid).
    rewrite Split_length_id. lia. }
  destruct (Split (Id (w_d w1))) as [|a [|b [|c rest]]] eqn:Hsp; simpl in Hlen; try lia.
  unfold bind. rewrite (wait_entry w1 a b c rest Hsp).
  destruct (wait_loop_shape (w_d w1) c (w_polls w1) 0 "" w1) as ((Hd & _) & _ & _).
  destruct (wait_loop (createStateConf (w_d w1) c) (w_polls w1) 0 "" w1)
    as [[r|p] w2]; cbn [fst snd] in *.
  - destruct r as [x|werr]; cbn [create_after_wait].
    + intros Hr Hne. rewrite (read_nonempty_keeps_d w2 ds Hr Hne), Hd. exact Hgoal.
    + intros _ _. cbn. rewrite Hd. exact Hgoal.
  - intros Hr. discriminate.
Qed.

Lemma create_error_keeps_id_witness :
  let w := sample_world (sample_d "" sample_config ∅)
             [ok_answer (secret_in "sid" "pre_activation"); ok_answer (secret_in "sid" "deactivated")] 5 in
  result_of (resourceIbmSmArbitrarySecretCreate sample_region sample_parse w) <> Done [] /\
  id_of (resourceIbmSmArbitrarySecretCreate sample_region sample_parse w) = "us-south/inst/sid".
Proof.
  intros w.
  assert (Hm : resourceIbmSmArbitrarySecretMapToArbitrarySecretPrototype sample_parse (w_d w) =
               inl (match resourceIbmSmArbitrarySecretMapToArbitrarySecretPrototype sample_parse (w_d w)
                    with inl p => p | inr _ => ArbitrarySecretPrototype.empty end))
    by (vm_compute; reflexivity).
  assert (Hres : fst (resourceIbmSmArbitrarySecretCreate sample_region sample_parse w) =
                 Done (match fst (resourceIbmSmArbitrarySecretCreate sample_region sample_parse w)
                       with Done ds => ds | Panicked _ => [] end))
    by (vm_compute; reflexivity).
  destruct (create_error_keeps_id sample_region sample_parse w _ (secret_in "sid" "pre_activation")
              "sid" (resp 200) eq_refl Hm eq_refl eq_refl _ Hres ltac:(vm_compute; discriminate))
    as [Hid _].
  split; [vm_compute; discriminate|]. exact Hid.
Defined.

(** ** Zero values in Update and in Create *)

(** Update tests a field with [d.HasChange], Create with [d.GetOk]: a
    description changed to "" is sent by Update as an empty description
    (and counts as a change), while the create request built from the
    same data carries no description at all. *)
Theorem update_sends_cleared_description (parse : string -> DateTime + string)
        (d : ResourceData) :
  HasChange d "description" = true ->
  rd_attrs d !! "description" = Some (VString "") ->
  SecretMetadataPatch.Description (fst (update_patch d)) = Some "" /\
  snd (update_patch d) = true /\
  (forall p, resourceIbmSmArbitrarySecretMapToArbitrarySecretPrototype parse d = inl p ->
             ArbitrarySecretPrototype.Description p = None).
Proof.
  intros Hch Hv. split; [|split].
  - unfold update_patch. cbn. rewrite Hch. unfold Get_string. by rewrite Hv.
  - unfold update_patch. cbn. rewrite Hch. by rewrite !orb_true_r.
  - intros p. unfold resourceIbmSmArbitrarySecretMapToArbitrarySecretPrototype.
    assert (Hg : GetOk d "description" = false) by (unfold GetOk; rewrite Hv; reflexivity).
    rewrite Hg.
    destruct (GetOk d "expiration_date");
      [destruct (parse (Get_string d "expiration_date"))|]; intros H; inversion H; reflexivity.
Qed.

Lemma update_sends_cleared_description_witness :
  let d := sample_d "us-south/inst/sid" (<["description" := VString ""]> sample_config)
             (<["description" := VString "old"]> sample_config) in
  SecretMetadataPatch.Description (fst (update_patch d)) = Some "" /\
  snd (update_patch d) = true.
Proof.
  intros d. destruct (update_sends_cleared_description sample_parse d eq_refl eq_refl)
    as (H1 & H2 & _). split; [exact H1|exact H2].
Defined.

(** ** The service credentials data source, on success *)

(** When the lookup yields a service credentials secret with an ID and
    no rotation policy or a common one, the data source read returns no
    diagnostic, issues no SDK call, sets the ID to
    region/instance_id/secret ID and the region attribute, and sets
    rotation to an empty list without a policy, or to a one-element list
    holding exactly the policy's set fields. *)
Theorem ds_read_success (s : ServiceCredentialsSecret.t) (region inst sid : string) (w : world) :
  ServiceCredentialsSecret.ID s = Some sid ->
  ServiceCredentialsSecret.Rotation s <> Some OtherRotationPolicyI ->
  let r := dataSourceIbmSmServiceCredentialsSecretRead
             (inl (ServiceCredentialsSecretI s, region, inst)) w in
  fst r = Done [] /\
  w_trace (snd r) = w_trace w /\
  rd_id (w_d (snd r)) = region +++ "/" +++ inst +++ "/" +++ sid /\
  rd_attrs (w_d (snd r)) !! "region" = Some (VString region) /\
  rd_attrs (w_d (snd r)) !! "rotation" =
    Some (match ServiceCredentialsSecret.Rotation s with
          | Some (CommonRotationPolicyI p) =>
              VList [VMap (dataSourceIbmSmServiceCredentialsSecretRotationPolicyToMap p)]
          | _ => VList []
          end).
Proof.
  intros Hid Hrot r. unfold r, dataSourceIbmSmServiceCredentialsSecretRead. rewrite Hid.
  destruct (ServiceCredentialsSecret.Rotation s) as [[p|]|] eqn:Hr; [| congruence |];
    unfold bind, getD, putD, ret; cbn [fst snd w_d w_trace];
    rewrite !lookup_set_all, !rd_id_set_all; unfold ds_read_attrs;
    destruct (ServiceCredentialsSecret.CustomMetadata s), (ServiceCredentialsSecret.Labels s);
    cbn; (split; [reflexivity|]); (split; [reflexivity|]); (split; [reflexivity|]);
    rewrite lookup_insert_eq; (split; reflexivity).
Qed.

Lemma ds_read_success_witness :
  rd_attrs (w_d (snd (dataSourceIbmSmServiceCredentialsSecretRead
                        (inl (ServiceCredentialsSecretI sample_sc_secret, "us-south", "inst"))
                        ds_world))) !! "region" = Some (VString "us-south").
Proof.
  destruct (ds_read_success sample_sc_secret "us-south" "inst" _ ds_world eq_refl
              ltac:(vm_compute; discriminate)) as (_ & _ & _ & H & _).
  exact H.
Defined.

(** ** Delete on success *)

(** When DeleteSecretWithContext succeeds, Delete returns no diagnostic,
    issues that single call for the third part of the resource ID, and
    clears the resource ID, leaving every attribute as it was. *)
Theorem delete_success_clears_id (w : world) (region inst sid : string) (rest : list string) :
  w_session_err w = None ->
  Split (Id (w_d w)) = region :: inst :: sid :: rest ->
  ans_err (w_server w (length (w_trace w))) = None ->
  let r := resourceIbmSmArbitrarySecretDelete w in
  fst r = Done [] /\
  w_trace (snd r) = (w_trace w ++ [(DeleteSecretWithContext sid, false)])%list /\
  rd_id (w_d (snd r)) = "" /\
  rd_attrs (w_d (snd r)) = rd_attrs (w_d w).
Proof.
  intros Hs Hid He r. unfold r. rewrite (delete_unfold w region inst sid rest Hs Hid). cbv zeta.
  unfold failed. rewrite He. repeat split.
Qed.

Lemma delete_success_clears_id_witness :
  let w := sample_world (sample_d "us-south/inst/sid" sample_config ∅)
             [ok_answer (secret_in "sid" "active")] 0 in
  id_of (resourceIbmSmArbitrarySecretDelete w) = "" /\
  result_of (resourceIbmSmArbitrarySecretDelete w) = Done [].
Proof.
  intros w. destruct (delete_success_clears_id w "us-south" "inst" "sid" [] eq_refl eq_refl eq_refl)
    as (H1 & _ & H3 & _). split; [exact H3|exact H1].
Defined.
